(** * Batch VTuber dashboard: the two batch route handlers

A shallow embedding of
- [src/app/api/youtube/channel/route.ts] (the channel discovery route:
  [numberOrUndefined], [getSupabaseClient], [parseBound],
  [fetchYouTubeChannels], [GET]), and
- [src/app/api/batch/route.ts] (the video sync route: [GET]),
followed by the properties of the pagination loop, of the bound
validation and of the row projection.

Conventions.
- A JavaScript number is a [jsnum]: [NaN], an infinity, or a finite
  value carried as the rational it denotes ([-0] and [+0] are both
  [Finite 0]).
- [undefined]/[null] in an optional field of a typed payload is [None].
- An exception is the message of the thrown [Error]; every [throw] of the
  two routes throws an [Error] or rethrows one.
- The outside world (the upstream API and the store) is a deterministic
  state machine given by Section variables: each outbound call maps the
  current world to what came back and the next world.  The handlers
  return what they produced together with the trace of outbound calls.
- The [while] loop of [fetchYouTubeChannels] need not terminate (an
  upstream that keeps answering with pages of known ids and a token keeps
  it running), so it takes fuel. *)

From stdpp Require Import gmap strings list pretty.
From Stdlib Require Import Ascii QArith Qround.

Close Scope Q_scope.
Open Scope string_scope.
Open Scope list_scope.
Open Scope nat_scope.

Set Warnings "-register-all,-clear-no-such-hyp".

(** ** JavaScript values *)

Inductive jsnum :=
| NaN
| Infinity (negative : bool)
| Finite (q : Q).

Inductive JsVal :=
| JUndefined
| JNull
| JBool (b : bool)
| JNumber (n : jsnum)
| JString (s : string)
| JArray (elements : list JsVal)
| JObject (fields : list (string * JsVal)).

(** [Number.isFinite] on a number. *)
Definition isFinite (n : jsnum) : bool :=
  match n with Finite _ => true | _ => false end.

(** [num < 0]. *)
Definition ltZero (n : jsnum) : bool :=
  match n with
  | NaN => false
  | Infinity negative => negative
  | Finite q => negb (Qle_bool 0 q)
  end.

(** [Math.floor], as the integer it yields on a finite number (the routes
    call it on finite numbers only). *)
Definition floor (n : jsnum) : Z :=
  match n with
  | Finite q => Qfloor q
  | _ => 0%Z
  end.

(** ToBoolean. *)
Definition truthy (v : JsVal) : bool :=
  match v with
  | JUndefined | JNull => false
  | JBool b => b
  | JNumber NaN => false
  | JNumber (Infinity _) => true
  | JNumber (Finite q) => negb (Qeq_bool q 0)
  | JString s => negb (String.eqb s EmptyString)
  | JArray _ | JObject _ => true
  end.

(** ToBoolean on an optional string: [!x] is [negb (truthyStr x)]. *)
Definition truthyStr (x : option string) : bool :=
  match x with
  | None => false
  | Some s => negb (String.eqb s EmptyString)
  end.

(** [a ?? b]. *)
Definition nullish {A} (a : option A) (b : A) : A :=
  match a with Some x => x | None => b end.

Definition numOfNat (n : nat) : JsVal := JNumber (Finite (inject_Z (Z.of_nat n))).

(** ** HTTP responses of the routes: [NextResponse.json(body, { status })] *)

Record NextResponse := { res_status : nat; res_body : JsVal }.

Definition json (body : JsVal) (status : nat) : NextResponse :=
  {| res_status := status; res_body := body |}.

Definition errorBody (message : string) : JsVal :=
  JObject [("error", JString message)].

(** ** What an outbound [fetch] gives back *)

Record HttpResponse (A : Type) := {
  status : nat;
  text : string;                (* [await res.text()] *)
  body_json : string + A;       (* [await res.json()]: throws, or the payload *)
}.
Arguments status {A}.
Arguments text {A}.
Arguments body_json {A}.

(** [res.ok]: the status is in the range 200-299. *)
Definition ok {A} (r : HttpResponse A) : bool :=
  (200 <=? status r) && (status r <=? 299).

(** A [fetch] either rejects (a network failure, with its message) or
    resolves to a response. *)
Definition Fetched (A : Type) : Type := string + HttpResponse A.

(** ** Outcomes of effectful code *)

Inductive Outcome (A : Type) :=
| Returned (a : A)
| Thrown (message : string)
| OutOfFuel.
Arguments Returned {A}.
Arguments Thrown {A}.
Arguments OutOfFuel {A}.

(** ** The monad of the routes: world passing, a trace, exceptions, fuel *)

Section Monad.

Context {World Event : Type}.

Definition M (A : Type) : Type := World -> Outcome A * list Event * World.

Definition ret {A} (a : A) : M A := fun w => (Returned a, [], w).

Definition throw {A} (message : string) : M A := fun w => (Thrown message, [], w).

Definition outOfFuel {A} : M A := fun w => (OutOfFuel, [], w).

Definition bind {A B} (m : M A) (k : A -> M B) : M B := fun w =>
  match m w with
  | (Returned a, t1, w1) =>
      match k a w1 with
      | (o, t2, w2) => (o, t1 ++ t2, w2)
      end
  | (Thrown message, t1, w1) => (Thrown message, t1, w1)
  | (OutOfFuel, t1, w1) => (OutOfFuel, t1, w1)
  end.

(** [try { m } catch (error) { handler(error.message) }]. *)
Definition catch {A} (m : M A) (handler : string -> M A) : M A := fun w =>
  match m w with
  | (Thrown message, t1, w1) =>
      match handler message w1 with
      | (o, t2, w2) => (o, t1 ++ t2, w2)
      end
  | r => r
  end.

End Monad.

Arguments M : clear implicits.

Notation "x <- m ;; k" := (bind m (fun x => k))
  (at level 100, m at next level, right associativity).

(** ** The built-ins the routes call *)

Section Builtins.

(** [String.prototype.trim], StringToNumber ([Number] on a string) and
    [Number] on an array or an object (ToPrimitive, then ToNumber) are
    taken as given. *)
Variable trim : string -> string.
Variable StringToNumber : string -> jsnum.
Variable ObjectToNumber : JsVal -> jsnum.

(** [Number(value)]. *)
Definition Number (value : JsVal) : jsnum :=
  match value with
  | JUndefined => NaN
  | JNull => Finite 0
  | JBool b => if b then Finite 1 else Finite 0
  | JNumber n => n
  | JString s => StringToNumber s
  | JArray _ | JObject _ => ObjectToNumber value
  end.

Definition numberOrUndefined (value : JsVal) : option jsnum :=
  match value with
  | JNull | JUndefined => None
  | _ =>
      let num :=
        match value with
        | JString _ => Number value
        | JNumber n => n
        | _ => Number value
        end in
      if isFinite num then Some num else None
  end.

(** [parseBound]: the bound, or the message of the [Error] it throws. *)
Definition parseBound (value : option string) (fallback : Z) : string + Z :=
  match value with
  | None => inr fallback
  | Some value =>
      if String.eqb (trim value) EmptyString then inr fallback
      else
        let num := Number (JString value) in
        if negb (isFinite num) || ltZero num then
          inl "Invalid numeric parameter"
        else inr (floor num)
  end.

End Builtins.

(** * The channel discovery route *)

Module ChannelDiscovery.

Record YouTubeChannel := {
  id : string;
  title : string;
  customUrl : option string;
  thumbnailUrl : option string;
  country : option string;
  subscriberCount : option jsnum;
  viewCount : option jsnum;
  videoCount : option jsnum;
  etag : option string;
}.

Definition KEYWORD := "Vtuber".
Definition MAX_RESULTS : nat := 100.
Definition SEARCH_ENDPOINT := "https://www.googleapis.com/youtube/v3/search".
Definition CHANNELS_ENDPOINT := "https://www.googleapis.com/youtube/v3/channels".
Definition CHUNK_SIZE : nat := 50.
Definition COUNTRY_CODE := "JP".
Definition MAX_ALLOWED_SUBSCRIBERS : Z := 10000.

(** ** Payloads of the upstream API, as the route reads them *)

(** An item of the search response: [item?.id?.channelId]. *)
Record ResourceId := { channelId : option string }.
Record SearchItem := { search_id : option ResourceId }.
Record SearchData := {
  search_items : option (list (option SearchItem));
  nextPageToken : option string;
}.

(** An item of the channels response. *)
Record Thumbnail := { url : option string }.
Record Thumbnails := {
  high : option Thumbnail;
  medium : option Thumbnail;
  default : option Thumbnail;
}.
Record Snippet := {
  snippet_title : option string;
  snippet_customUrl : option string;
  thumbnails : option Thumbnails;
  snippet_country : option string;
}.
Record Statistics := {
  hiddenSubscriberCount : JsVal;
  stat_subscriberCount : JsVal;
  stat_viewCount : JsVal;
  stat_videoCount : JsVal;
}.
Record ChannelItem := {
  item_id : option string;
  snippet : option Snippet;
  statistics : option Statistics;
  item_etag : option string;
}.
Record ChannelsData := {
  channel_items : option (list (option ChannelItem));
}.

(** The empty object [{}] that stands in for a missing snippet or
    statistics. *)
Definition emptySnippet : Snippet :=
  {| snippet_title := None; snippet_customUrl := None;
     thumbnails := None; snippet_country := None |}.
Definition emptyStatistics : Statistics :=
  {| hiddenSubscriberCount := JUndefined; stat_subscriberCount := JUndefined;
     stat_viewCount := JUndefined; stat_videoCount := JUndefined |}.

(** ** URLs: an endpoint and its [searchParams] *)

Record Url := { endpoint : string; searchParams : list (string * string) }.

(** [URLSearchParams.set]: the first pair of that name takes the value and
    the other pairs of that name go; with no such pair, one is appended. *)
Fixpoint params_set (name value : string) (ps : list (string * string))
  : list (string * string) :=
  match ps with
  | [] => [(name, value)]
  | (k, v) :: rest =>
      if String.eqb k name
      then (k, value) :: filter (fun p => negb (String.eqb (fst p) name)) rest
      else (k, v) :: params_set name value rest
  end.

(** [URLSearchParams.get]. *)
Fixpoint params_get (name : string) (ps : list (string * string)) : option string :=
  match ps with
  | [] => None
  | (k, v) :: rest => if String.eqb k name then Some v else params_get name rest
  end.

Definition newUrl (e : string) : Url := {| endpoint := e; searchParams := [] |}.
Definition setParam (name value : string) (u : Url) : Url :=
  {| endpoint := endpoint u; searchParams := params_set name value (searchParams u) |}.

(** [ids.join(",")]. *)
Fixpoint join (sep : string) (l : list string) : string :=
  match l with
  | [] => EmptyString
  | [x] => x
  | x :: rest => x +:+ sep +:+ join sep rest
  end.

(** Lines 56-64: the search request of one iteration. *)
Definition searchUrlOf (apiKey : string) (remaining : nat) (pageToken : option string) : Url :=
  let u := newUrl SEARCH_ENDPOINT in
  let u := setParam "part" "id" u in
  let u := setParam "q" KEYWORD u in
  let u := setParam "type" "channel" u in
  let u := setParam "maxResults" (pretty (CHUNK_SIZE `min` remaining)) u in
  let u := setParam "key" apiKey u in
  let u := setParam "regionCode" COUNTRY_CODE u in
  let u := setParam "relevanceLanguage" "ja" u in
  match pageToken with
  | Some t => if truthyStr pageToken then setParam "pageToken" t u else u
  | None => u
  end.

(** Lines 88-91: the detail request for a batch of candidate ids. *)
Definition detailUrlOf (apiKey : string) (candidateIds : list string) : Url :=
  let u := newUrl CHANNELS_ENDPOINT in
  let u := setParam "part" "snippet,statistics" u in
  let u := setParam "id" (join "," candidateIds) u in
  setParam "key" apiKey u.

(** ** Lines 73-80: the candidate ids of one search page *)

(** [item?.id?.channelId]. *)
Definition channelIdOf (item : option SearchItem) : option string :=
  match item with
  | Some it =>
      match search_id it with
      | Some rid => channelId rid
      | None => None
      end
  | None => None
  end.

(** The [for] loop over the items, from the current [candidateIds] and
    [seen]; it leaves the loop once the batch reaches [remaining]. *)
Fixpoint collectCandidates (items : list (option SearchItem)) (remaining : nat)
         (candidateIds : list string) (seen : gset string)
  : list string * gset string :=
  match items with
  | [] => (candidateIds, seen)
  | item :: rest =>
      let id := channelIdOf item in
      match id with
      | Some i =>
          if negb (truthyStr id) || bool_decide (i ∈ seen) then
            collectCandidates rest remaining candidateIds seen
          else
            let candidateIds := candidateIds ++ [i] in
            let seen := {[i]} ∪ seen in
            if remaining <=? length candidateIds then (candidateIds, seen)
            else collectCandidates rest remaining candidateIds seen
      | None => collectCandidates rest remaining candidateIds seen
      end
  end.

(** ** Lines 100-125: the detail map *)

(** [a?.url]. *)
Definition urlOf (t : option Thumbnail) : option string :=
  match t with Some t => url t | None => None end.

(** [a ?? b] where both may be absent. *)
Definition orElse {A} (a b : option A) : option A :=
  match a with Some _ => a | None => b end.

(** ** Lines 127-131: the merge *)

Definition mergeStep (detailMap : gmap string YouTubeChannel)
           (collected : list YouTubeChannel) (id : string) : list YouTubeChannel :=
  match detailMap !! id with
  | Some channel => collected ++ [channel]
  | None => collected
  end.

Definition mergeDetails (detailMap : gmap string YouTubeChannel)
           (candidateIds : list string) (collected : list YouTubeChannel)
  : list YouTubeChannel :=
  foldl (mergeStep detailMap) collected candidateIds.

(** ** The rows of the two tables and the store client *)

Record ChannelRow := {
  row_id : string;
  row_title : string;
  custom_url : option string;
  thumbnail_url : option string;
  row_country : option string;
  row_etag : option string;
}.

Record StatsRow := {
  channel_id : string;
  subscriber_count : option jsnum;
  view_count : option jsnum;
  video_count : option jsnum;
}.

Inductive Rows :=
| ChannelRows (rows : list ChannelRow)
| StatsRows (rows : list StatsRow).

(** [createClient(supabaseUrl, supabaseKey, { auth: { persistSession: false } })]. *)
Record SupabaseClient := { supabaseUrl : string; supabaseKey : string }.

(** [process.env]. *)
Record Env := {
  YOUTUBE_API_KEY : option string;
  SUPABASE_URL : option string;
  SUPABASE_SERVICE_ROLE_KEY : option string;
  SUPABASE_ANON_KEY : option string;
}.

Definition getSupabaseClient (env : Env) : option SupabaseClient :=
  let supabaseUrl := SUPABASE_URL env in
  let supabaseKey := orElse (SUPABASE_SERVICE_ROLE_KEY env) (SUPABASE_ANON_KEY env) in
  match supabaseUrl, supabaseKey with
  | Some u, Some k =>
      if negb (truthyStr supabaseUrl) || negb (truthyStr supabaseKey) then None
      else Some {| supabaseUrl := u; supabaseKey := k |}
  | _, _ => None
  end.

(** The two query parameters the route reads:
    [searchParams.get("minSubscribers")] and [searchParams.get("maxSubscribers")]. *)
Record Query := {
  get_minSubscribers : option string;
  get_maxSubscribers : option string;
}.

(** ** Outbound calls and their trace *)

Inductive Event :=
| SearchCall (url : Url) (res : Fetched SearchData)
| ChannelsCall (url : Url) (res : Fetched ChannelsData)
| UpsertCall (client : SupabaseClient) (table : string) (rows : Rows)
             (onConflict : string) (error : option string).

Definition isUpsert (e : Event) : bool :=
  match e with UpsertCall _ _ _ _ _ => true | _ => false end.

Definition isSearch (e : Event) : bool :=
  match e with SearchCall _ _ => true | _ => false end.

(** An upsert of no row at all. *)
Definition isEmptyUpsert (e : Event) : bool :=
  match e with
  | UpsertCall _ _ (ChannelRows []) _ _ | UpsertCall _ _ (StatsRows []) _ _ => true
  | _ => false
  end.


(** The search requests of a trace follow the cursor: a request carries as
    [pageToken] the token at hand when that token is truthy and no
    [pageToken] otherwise, and the token at hand for the requests after it is
    the [nextPageToken] of its response. *)
Fixpoint tokensChained (token : option string) (t : list Event) : Prop :=
  match t with
  | [] => True
  | SearchCall url res :: rest =>
      params_get "pageToken" (searchParams url)
      = (if truthyStr token then token else None) /\
      match res with
      | inr searchRes =>
          match body_json searchRes with
          | inr searchData => tokensChained (nextPageToken searchData) rest
          | inl _ => tokensChained None rest
          end
      | inl _ => tokensChained None rest
      end
  | _ :: rest => tokensChained token rest
  end.

(** A count that is a finite number or absent. *)
Definition finiteOrAbsent (count : option jsnum) : bool :=
  match count with
  | Some n => isFinite n
  | None => true
  end.

(** The state of the [while] loop. *)
Record LoopState := {
  collected : list YouTubeChannel;
  seen : gset string;
  pageToken : option string;       (* the variable [nextPageToken] *)
}.

(** The invariant of the loop: the cap holds, the ids collected are
    pairwise distinct, and each of them is in the set of seen ids. *)
Definition Invariant (st : LoopState) : Prop :=
  length (collected st) <= MAX_RESULTS /\
  NoDup (id <$> collected st) /\
  (forall channel, channel ∈ collected st -> id channel ∈ seen st).

(** A search request asks for a page of one to [CHUNK_SIZE] results. *)
Definition pageSizeWithin (e : Event) : Prop :=
  match e with
  | SearchCall url _ =>
      exists n, params_get "maxResults" (searchParams url) = Some (pretty n) /\
                1 <= n <= CHUNK_SIZE
  | _ => True
  end.

(** The error that a response which is not a success surfaces as. *)
Definition surfacedError (e : Event) : option string :=
  match e with
  | SearchCall _ (inr res) =>
      if ok res then None
      else Some ("YouTube search API error: " +:+ pretty (status res)
                   +:+ " " +:+ text res)
  | ChannelsCall _ (inr res) =>
      if ok res then None
      else Some ("YouTube channels API error: " +:+ pretty (status res)
                   +:+ " " +:+ text res)
  | _ => None
  end.

(** How one turn of the loop ends: [continue] (or falling off the end of
    the body), or [break]. *)
Inductive Control :=
| Continue (st : LoopState)
| Break (st : LoopState).

Section Route.

(** The built-ins (see [Builtins] above), and the outside world: the search
    and channels endpoints behind [fetch], and the store behind
    [supabase.from(table).upsert(rows, { onConflict })], whose result carries
    the [error] ([None] for [null], else its message). *)
Variable trim : string -> string.
Variable StringToNumber : string -> jsnum.
Variable ObjectToNumber : JsVal -> jsnum.
Variable World : Type.
Variable fetchSearch : World -> Url -> Fetched SearchData * World.
Variable fetchChannels : World -> Url -> Fetched ChannelsData * World.
Variable upsert :
  World -> SupabaseClient -> string -> Rows -> string -> option string * World.

Local Abbreviation numberOrUndefined := (numberOrUndefined StringToNumber ObjectToNumber).
Local Abbreviation parseBound := (parseBound trim StringToNumber ObjectToNumber).

(** *** Lines 100-125: the detail map *)

(** The record stored for an item whose id is [id] (lines 104-124). *)
Definition channelOf (id : string) (item : ChannelItem) : YouTubeChannel :=
  let snippet := nullish (snippet item) emptySnippet in
  let statistics := nullish (statistics item) emptyStatistics in
  let subscriberCount :=
    if truthy (hiddenSubscriberCount statistics) then None
    else numberOrUndefined (stat_subscriberCount statistics) in
  {| id := id;
     title := nullish (snippet_title snippet) id;
     customUrl := orElse (snippet_customUrl snippet) None;
     thumbnailUrl :=
       let t := thumbnails snippet in
       orElse (urlOf (t ≫= high))
         (orElse (urlOf (t ≫= medium))
            (orElse (urlOf (t ≫= default)) None));
     country := orElse (snippet_country snippet) None;
     subscriberCount := subscriberCount;
     viewCount := numberOrUndefined (stat_viewCount statistics);
     videoCount := numberOrUndefined (stat_videoCount statistics);
     etag := orElse (item_etag item) None |}.

(** One turn of the loop over the detail items: [detailMap.set(id, ...)]
    unless the item has no id. *)
Definition detailStep (detailMap : gmap string YouTubeChannel)
           (item : option ChannelItem) : gmap string YouTubeChannel :=
  match item with
  | Some it =>
      match item_id it with
      | Some i =>
          if negb (truthyStr (item_id it)) then detailMap
          else <[i := channelOf i it]> detailMap
      | None => detailMap
      end
  | None => detailMap
  end.

Definition buildDetailMap (items : list (option ChannelItem))
  : gmap string YouTubeChannel :=
  foldl detailStep ∅ items.

(** *** The outbound calls *)

Local Abbreviation M := (M World Event).

(** [await fetch(url)] on the search endpoint; a rejected [fetch] throws. *)
Definition fetchSearchM (url : Url) : M (HttpResponse SearchData) := fun w =>
  match fetchSearch w url with
  | (inl message, w1) => (Thrown message, [SearchCall url (inl message)], w1)
  | (inr res, w1) => (Returned res, [SearchCall url (inr res)], w1)
  end.

(** [await fetch(url)] on the channels endpoint. *)
Definition fetchChannelsM (url : Url) : M (HttpResponse ChannelsData) := fun w =>
  match fetchChannels w url with
  | (inl message, w1) => (Thrown message, [ChannelsCall url (inl message)], w1)
  | (inr res, w1) => (Returned res, [ChannelsCall url (inr res)], w1)
  end.

(** [await res.json()]. *)
Definition jsonOf {A} (res : HttpResponse A) : M A :=
  match body_json res with
  | inl message => throw message
  | inr data => ret data
  end.

(** [await supabase.from(table).upsert(rows, { onConflict })], giving the
    [error] of the result. *)
Definition upsertM (supabase : SupabaseClient) (table : string) (rows : Rows)
           (onConflict : string) : M (option string) := fun w =>
  match upsert w supabase table rows onConflict with
  | (error, w1) => (Returned error, [UpsertCall supabase table rows onConflict error], w1)
  end.

(** *** Lines 55-134: one turn of the [while] loop *)

Definition iteration (apiKey : string) (st : LoopState) : M Control :=
  let remaining := MAX_RESULTS - length (collected st) in
  let searchUrl := searchUrlOf apiKey remaining (pageToken st) in
  searchRes <- fetchSearchM searchUrl ;;
  if negb (ok searchRes) then
    throw ("YouTube search API error: " +:+ pretty (status searchRes)
             +:+ " " +:+ text searchRes)
  else
    searchData <- jsonOf searchRes ;;
    let '(candidateIds, seen) :=
      collectCandidates (nullish (search_items searchData) []) remaining [] (seen st) in
    if length candidateIds =? 0 then
      let st := {| collected := collected st; seen := seen;
                   pageToken := nextPageToken searchData |} in
      if negb (truthyStr (pageToken st)) then ret (Break st)
      else ret (Continue st)
    else
      let detailUrl := detailUrlOf apiKey candidateIds in
      detailRes <- fetchChannelsM detailUrl ;;
      if negb (ok detailRes) then
        throw ("YouTube channels API error: " +:+ pretty (status detailRes)
                 +:+ " " +:+ text detailRes)
      else
        detailData <- jsonOf detailRes ;;
        let detailMap := buildDetailMap (nullish (channel_items detailData) []) in
        let st := {| collected := mergeDetails detailMap candidateIds (collected st);
                     seen := seen;
                     pageToken := nextPageToken searchData |} in
        if negb (truthyStr (pageToken st)) then ret (Break st)
        else ret (Continue st).

(** *** The runs of one turn, as a relation

    [IterationRun apiKey st w o t w'] lists the ways through the body of the
    loop from the state [st] in the world [w]: what it ends with, the calls
    it made and the world it leaves.  [iteration] is shown to follow it
    ([iteration_run] below). *)

Inductive IterationRun (apiKey : string) (st : LoopState) (w : World)
  : Outcome Control -> list Event -> World -> Prop :=
| RunSearchRejected message w1 :
    let remaining := MAX_RESULTS - length (collected st) in
    let searchUrl := searchUrlOf apiKey remaining (pageToken st) in
    fetchSearch w searchUrl = (inl message, w1) ->
    IterationRun apiKey st w (Thrown message) [SearchCall searchUrl (inl message)] w1
| RunSearchFailed searchRes w1 :
    let remaining := MAX_RESULTS - length (collected st) in
    let searchUrl := searchUrlOf apiKey remaining (pageToken st) in
    fetchSearch w searchUrl = (inr searchRes, w1) ->
    ok searchRes = false ->
    IterationRun apiKey st w
      (Thrown ("YouTube search API error: " +:+ pretty (status searchRes)
                 +:+ " " +:+ text searchRes))
      [SearchCall searchUrl (inr searchRes)] w1
| RunSearchMalformed searchRes message w1 :
    let remaining := MAX_RESULTS - length (collected st) in
    let searchUrl := searchUrlOf apiKey remaining (pageToken st) in
    fetchSearch w searchUrl = (inr searchRes, w1) ->
    ok searchRes = true ->
    body_json searchRes = inl message ->
    IterationRun apiKey st w (Thrown message) [SearchCall searchUrl (inr searchRes)] w1
| RunNoCandidate searchRes searchData seen' w1 :
    let remaining := MAX_RESULTS - length (collected st) in
    let searchUrl := searchUrlOf apiKey remaining (pageToken st) in
    fetchSearch w searchUrl = (inr searchRes, w1) ->
    ok searchRes = true ->
    body_json searchRes = inr searchData ->
    collectCandidates (nullish (search_items searchData) []) remaining [] (seen st)
    = ([], seen') ->
    let st' := {| collected := collected st; seen := seen';
                  pageToken := nextPageToken searchData |} in
    IterationRun apiKey st w
      (Returned (if truthyStr (nextPageToken searchData) then Continue st' else Break st'))
      [SearchCall searchUrl (inr searchRes)] w1
| RunDetail searchRes searchData candidateIds seen' w1 detail w2 :
    let remaining := MAX_RESULTS - length (collected st) in
    let searchUrl := searchUrlOf apiKey remaining (pageToken st) in
    fetchSearch w searchUrl = (inr searchRes, w1) ->
    ok searchRes = true ->
    body_json searchRes = inr searchData ->
    collectCandidates (nullish (search_items searchData) []) remaining [] (seen st)
    = (candidateIds, seen') ->
    candidateIds <> [] ->
    let detailUrl := detailUrlOf apiKey candidateIds in
    fetchChannels w1 detailUrl = (detail, w2) ->
    let st' :=
      fun detailData =>
        {| collected :=
             mergeDetails (buildDetailMap (nullish (channel_items detailData) []))
                          candidateIds (collected st);
           seen := seen';
           pageToken := nextPageToken searchData |} in
    IterationRun apiKey st w
      match detail with
      | inl message => Thrown message
      | inr detailRes =>
          if ok detailRes then
            match body_json detailRes with
            | inl message => Thrown message
            | inr detailData =>
                Returned (if truthyStr (nextPageToken searchData)
                          then Continue (st' detailData) else Break (st' detailData))
            end
          else
            Thrown ("YouTube channels API error: " +:+ pretty (status detailRes)
                      +:+ " " +:+ text detailRes)
      end
      [SearchCall searchUrl (inr searchRes); ChannelsCall detailUrl detail] w2.

(** *** Lines 54-135: the [while] loop, one unit of fuel per turn *)

Fixpoint loop (fuel : nat) (apiKey : string) (st : LoopState) : M LoopState :=
  if length (collected st) <? MAX_RESULTS then
    match fuel with
    | 0 => outOfFuel
    | S fuel =>
        c <- iteration apiKey st ;;
        match c with
        | Continue st => loop fuel apiKey st
        | Break st => ret st
        end
    end
  else ret st.

(** *** The runs of the loop, as a relation

    [LoopRun apiKey st w o t w'] lists the runs of the [while] loop from the
    state [st]: it is over when the cap is reached, when a turn breaks or
    throws, or when the fuel is gone; otherwise a turn is followed by a run
    from the state it leaves.  [loop] is shown to follow it ([loop_run]
    below). *)

Inductive LoopRun (apiKey : string)
  : LoopState -> World -> Outcome LoopState -> list Event -> World -> Prop :=
| LoopCapReached st w :
    MAX_RESULTS <= length (collected st) ->
    LoopRun apiKey st w (Returned st) [] w
| LoopOutOfFuel st w :
    length (collected st) < MAX_RESULTS ->
    LoopRun apiKey st w OutOfFuel [] w
| LoopBreak st w st' t w' :
    length (collected st) < MAX_RESULTS ->
    IterationRun apiKey st w (Returned (Break st')) t w' ->
    LoopRun apiKey st w (Returned st') t w'
| LoopThrown st w message t w' :
    length (collected st) < MAX_RESULTS ->
    IterationRun apiKey st w (Thrown message) t w' ->
    LoopRun apiKey st w (Thrown message) t w'
| LoopContinue st w st1 t1 w1 o t2 w2 :
    length (collected st) < MAX_RESULTS ->
    IterationRun apiKey st w (Returned (Continue st1)) t1 w1 ->
    LoopRun apiKey st1 w1 o t2 w2 ->
    LoopRun apiKey st w o (t1 ++ t2) w2.

Definition initialState : LoopState :=
  {| collected := []; seen := ∅; pageToken := None |}.

Definition fetchYouTubeChannels (fuel : nat) (apiKey : string) : M (list YouTubeChannel) :=
  st <- loop fuel apiKey initialState ;;
  ret (take MAX_RESULTS (collected st)).

(** *** Lines 141-169: the bounds *)

(** The validation at the head of [GET]: the response it returns at once, or
    the two bounds it goes on with. *)
Definition validateBounds (request : Query) : NextResponse + (Z * Z) :=
  match parseBound (get_minSubscribers request) 0%Z with
  | inl message => inl (json (errorBody message) 400)
  | inr minSubscribers =>
      match parseBound (get_maxSubscribers request) MAX_ALLOWED_SUBSCRIBERS with
      | inl message => inl (json (errorBody message) 400)
      | inr maxSubscribers =>
          if (MAX_ALLOWED_SUBSCRIBERS <? minSubscribers)%Z then
            inl (json (errorBody ("minSubscribers must be less than or equal to "
                                    +:+ pretty MAX_ALLOWED_SUBSCRIBERS)) 400)
          else
            let maxSubscribers :=
              if (MAX_ALLOWED_SUBSCRIBERS <? maxSubscribers)%Z
              then MAX_ALLOWED_SUBSCRIBERS else maxSubscribers in
            if (maxSubscribers <? minSubscribers)%Z then
              inl (json (errorBody
                           "minSubscribers must be less than or equal to maxSubscribers") 400)
            else inr (minSubscribers, maxSubscribers)
      end
  end.

(** *** Lines 188-218: the body of the [try] *)

Definition channelRowOf (channel : YouTubeChannel) : ChannelRow :=
  {| row_id := id channel;
     row_title := title channel;
     custom_url := orElse (customUrl channel) None;
     thumbnail_url := orElse (thumbnailUrl channel) None;
     row_country := orElse (country channel) None;
     row_etag := orElse (etag channel) None |}.

Definition statsRowOf (channel : YouTubeChannel) : StatsRow :=
  {| channel_id := id channel;
     subscriber_count := orElse (subscriberCount channel) None;
     view_count := orElse (viewCount channel) None;
     video_count := orElse (videoCount channel) None |}.

Definition completedBody : JsVal :=
  JObject [("status", numOfNat 200); ("message", JString "Batch processing completed")].

Definition refresh (fuel : nat) (youtubeApiKey : string) (supabase : SupabaseClient)
  : M NextResponse :=
  channels <- fetchYouTubeChannels fuel youtubeApiKey ;;
  let channelRows := map channelRowOf channels in
  let statsRows := map statsRowOf channels in
  _ <- (if 0 <? length channelRows then
          channelError <- upsertM supabase "channels" (ChannelRows channelRows) "id" ;;
          match channelError with
          | Some message => throw message
          | None => ret tt
          end
        else ret tt) ;;
  _ <- (if 0 <? length statsRows then
          statsError <- upsertM supabase "channel_stats" (StatsRows statsRows) "channel_id" ;;
          match statsError with
          | Some message => throw message
          | None => ret tt
          end
        else ret tt) ;;
  ret (json completedBody 200).

(** *** Lines 171-222: what [GET] does once the bounds are validated

    [minSubscribers] and [maxSubscribers] are the two local variables, in
    scope here as they are in the source. *)

Definition afterValidation (minSubscribers maxSubscribers : Z)
           (fuel : nat) (env : Env) : M NextResponse :=
  match YOUTUBE_API_KEY env with
  | Some youtubeApiKey =>
      if negb (truthyStr (YOUTUBE_API_KEY env)) then
        ret (json (errorBody "Server is not configured with YOUTUBE_API_KEY") 500)
      else
        match getSupabaseClient env with
        | None =>
            ret (json (errorBody "Server is not configured with Supabase credentials") 500)
        | Some supabase =>
            catch (refresh fuel youtubeApiKey supabase)
                  (fun message => ret (json (errorBody message) 500))
        end
  | None => ret (json (errorBody "Server is not configured with YOUTUBE_API_KEY") 500)
  end.

(** *** Lines 140-223: the handler *)

Definition GET (fuel : nat) (request : Query) (env : Env) : M NextResponse :=
  match validateBounds request with
  | inl response => ret response
  | inr (minSubscribers, maxSubscribers) =>
      afterValidation minSubscribers maxSubscribers fuel env
  end.

End Route.

End ChannelDiscovery.

(** * The video sync route *)

Module VideoSync.

(** An item of the search response, as the route reads it:
    [item.id.videoId], [item.snippet.title], [item.snippet.publishedAt]. *)
Record VideoId := { videoId : option string }.
Record VideoSnippet := { title : option string; publishedAt : option string }.
Record VideoItem := { id : option VideoId; snippet : option VideoSnippet }.
Record VideoData := { items : option (list VideoItem) }.

Record VideoRow := {
  video_id : option string;
  row_title : option string;
  published_at : option string;
}.

Record SupabaseClient := { supabaseUrl : string; supabaseKey : string }.

(** [process.env]. *)
Record Env := {
  YT_CHANNEL_ID : option string;
  YOUTUBE_API_KEY : option string;
  SUPABASE_URL : option string;
  SUPABASE_SERVICE_ROLE_KEY : option string;
}.

Inductive Event :=
| FetchCall (url : string) (res : Fetched VideoData)
| UpsertCall (client : SupabaseClient) (table : string) (rows : list VideoRow)
             (onConflict : string) (error : option string)
| ConsoleError (message : string).

Definition isUpsert (e : Event) : bool :=
  match e with UpsertCall _ _ _ _ _ => true | _ => false end.

(** [`${x}`] on an environment variable. *)
Definition interpolate (x : option string) : string :=
  match x with Some s => s | None => "undefined" end.

(** Line 8: the request. *)
Definition requestUrl (env : Env) : string :=
  "https://www.googleapis.com/youtube/v3/search?part=snippet&channelId="
    +:+ interpolate (YT_CHANNEL_ID env)
    +:+ "&order=date&maxResults=50&key="
    +:+ interpolate (YOUTUBE_API_KEY env).

(** Lines 18-22: the row of one item; reading a property of a missing [id]
    or [snippet] throws a [TypeError]. *)
Definition rowOf (item : VideoItem) : string + VideoRow :=
  match id item with
  | None => inl "Cannot read properties of undefined (reading 'videoId')"
  | Some i =>
      match snippet item with
      | None => inl "Cannot read properties of undefined (reading 'title')"
      | Some s =>
          inr {| video_id := videoId i; row_title := title s;
                 published_at := publishedAt s |}
      end
  end.

(** [items.map(...)]: the rows, or the message of the first throw. *)
Fixpoint rowsOf (items : list VideoItem) : string + list VideoRow :=
  match items with
  | [] => inr []
  | item :: rest =>
      match rowOf item with
      | inl message => inl message
      | inr row =>
          match rowsOf rest with
          | inl message => inl message
          | inr rows => inr (row :: rows)
          end
      end
  end.

(** [createClient(url!, key!)]: the library throws on a missing URL or key. *)
Definition createClient (url key : option string) : string + SupabaseClient :=
  match url with
  | Some u =>
      if negb (truthyStr url) then inl "supabaseUrl is required."
      else
        match key with
        | Some k =>
            if negb (truthyStr key) then inl "supabaseKey is required."
            else inr {| supabaseUrl := u; supabaseKey := k |}
        | None => inl "supabaseKey is required."
        end
  | None => inl "supabaseUrl is required."
  end.

Section Route.

(** The outside world: the upstream API behind [fetch] and the store behind
    [supabase.from('videos').upsert(rows, { onConflict })]. *)
Variable World : Type.
Variable fetch : World -> string -> Fetched VideoData * World.
Variable upsert :
  World -> SupabaseClient -> string -> list VideoRow -> string -> option string * World.

Local Abbreviation M := (M World Event).

Definition fetchM (url : string) : M (HttpResponse VideoData) := fun w =>
  match fetch w url with
  | (inl message, w1) => (Thrown message, [FetchCall url (inl message)], w1)
  | (inr res, w1) => (Returned res, [FetchCall url (inr res)], w1)
  end.

Definition upsertM (supabase : SupabaseClient) (table : string) (rows : list VideoRow)
           (onConflict : string) : M (option string) := fun w =>
  match upsert w supabase table rows onConflict with
  | (error, w1) => (Returned error, [UpsertCall supabase table rows onConflict error], w1)
  end.

Definition consoleError (message : string) : M unit := fun w =>
  (Returned tt, [ConsoleError message], w).

(** [x], or a throw of its message. *)
Definition orThrow {A} (x : string + A) : M A :=
  match x with
  | inl message => throw message
  | inr a => ret a
  end.

(** Lines 7-29: the body of the [try]. *)
Definition sync (env : Env) : M NextResponse :=
  youtubeRes <- fetchM (requestUrl env) ;;
  if negb (ok youtubeRes) then throw "YouTube API request failed"
  else
    data <- orThrow (body_json youtubeRes) ;;
    supabase <- orThrow (createClient (SUPABASE_URL env) (SUPABASE_SERVICE_ROLE_KEY env)) ;;
    rows <- orThrow (match items data with
                     | Some items => rowsOf items
                     | None => inl "Cannot read properties of undefined (reading 'map')"
                     end) ;;
    error <- upsertM supabase "videos" rows "video_id" ;;
    match error with
    | Some message => throw message
    | None => ret (json (JObject [("inserted", numOfNat (length rows))]) 200)
    end.

(** Lines 5-34: the handler. *)
Definition GET (env : Env) : M NextResponse :=
  catch (sync env)
        (fun message =>
           _ <- consoleError message ;;
           ret (json (errorBody "batch failed") 500)).

End Route.

End VideoSync.

(** * Instances for the examples *)

Module Examples.

(** An instance of [trim]: it strips the ASCII white space (tab, line feed,
    vertical tab, form feed, carriage return, space) at both ends, as the
    built-in does on ASCII strings. *)
Definition isAsciiSpace (c : ascii) : bool :=
  let n := nat_of_ascii c in
  ((9 <=? n) && (n <=? 13)) || (n =? 32).

Fixpoint dropSpaces (l : list ascii) : list ascii :=
  match l with
  | c :: rest => if isAsciiSpace c then dropSpaces rest else l
  | [] => []
  end.

Definition trim (s : string) : string :=
  String.string_of_list_ascii
    (rev (dropSpaces (rev (dropSpaces (String.list_ascii_of_string s))))).

(** An instance of StringToNumber: on one to fifteen decimal digits, the
    number they denote, as the built-in gives; [NaN] on the strings the
    examples do not use. *)
Definition digitOf (c : ascii) : option Z :=
  let n := nat_of_ascii c in
  if (48 <=? n) && (n <=? 57) then Some (Z.of_nat (n - 48)) else None.

Fixpoint digitsValue (l : list ascii) (acc : Z) : option Z :=
  match l with
  | [] => Some acc
  | c :: rest =>
      match digitOf c with
      | Some d => digitsValue rest (10 * acc + d)%Z
      | None => None
      end
  end.

Definition StringToNumber (s : string) : jsnum :=
  let l := String.list_ascii_of_string s in
  if (1 <=? length l) && (length l <=? 15) then
    match digitsValue l 0%Z with
    | Some n => Finite (inject_Z n)
    | None => NaN
    end
  else NaN.

(** An instance of [Number] on arrays and objects: [Number([])] is [0],
    [Number({})] is [NaN]; [NaN] on the values the examples do not use. *)
Definition ObjectToNumber (v : JsVal) : jsnum :=
  match v with
  | JArray [] => Finite 0
  | _ => NaN
  end.

(** A scripted outside world for the discovery route: the responses of the
    search endpoint and of the channels endpoint, each served in order; an
    exhausted script rejects the [fetch].  The store accepts every upsert. *)
Record Script := {
  searchScript : list (Fetched ChannelDiscovery.SearchData);
  channelsScript : list (Fetched ChannelDiscovery.ChannelsData);
}.

Definition fetchSearch (w : Script) (url : ChannelDiscovery.Url)
  : Fetched ChannelDiscovery.SearchData * Script :=
  match searchScript w with
  | r :: rest => (r, {| searchScript := rest; channelsScript := channelsScript w |})
  | [] => (inl "fetch failed", w)
  end.

Definition fetchChannels (w : Script) (url : ChannelDiscovery.Url)
  : Fetched ChannelDiscovery.ChannelsData * Script :=
  match channelsScript w with
  | r :: rest => (r, {| searchScript := searchScript w; channelsScript := rest |})
  | [] => (inl "fetch failed", w)
  end.

Definition upsert (w : Script) (client : ChannelDiscovery.SupabaseClient)
           (table : string) (rows : ChannelDiscovery.Rows) (onConflict : string)
  : option string * Script := (None, w).

(** A search page: its channel ids and its continuation token. *)
Definition searchPage (ids : list string) (token : option string)
  : Fetched ChannelDiscovery.SearchData :=
  inr {| status := 200; text := EmptyString;
         body_json :=
           inr {| ChannelDiscovery.search_items :=
                    Some (map (fun i =>
                                 Some {| ChannelDiscovery.search_id :=
                                           Some {| ChannelDiscovery.channelId := Some i |} |})
                              ids);
                  ChannelDiscovery.nextPageToken := token |} |}.

(** A channels response: for each id, its statistics. *)
Definition channelsPage (l : list (string * ChannelDiscovery.Statistics))
  : Fetched ChannelDiscovery.ChannelsData :=
  inr {| status := 200; text := EmptyString;
         body_json :=
           inr {| ChannelDiscovery.channel_items :=
                    Some (map (fun p =>
                                 Some {| ChannelDiscovery.item_id := Some (fst p);
                                         ChannelDiscovery.snippet := None;
                                         ChannelDiscovery.statistics := Some (snd p);
                                         ChannelDiscovery.item_etag := None |})
                              l) |} |}.

Definition stats (hidden : JsVal) (subscribers views videos : string)
  : ChannelDiscovery.Statistics :=
  {| ChannelDiscovery.hiddenSubscriberCount := hidden;
     ChannelDiscovery.stat_subscriberCount := JString subscribers;
     ChannelDiscovery.stat_viewCount := JString views;
     ChannelDiscovery.stat_videoCount := JString videos |}.

Definition env : ChannelDiscovery.Env :=
  {| ChannelDiscovery.YOUTUBE_API_KEY := Some "key";
     ChannelDiscovery.SUPABASE_URL := Some "https://db.example";
     ChannelDiscovery.SUPABASE_SERVICE_ROLE_KEY := Some "service";
     ChannelDiscovery.SUPABASE_ANON_KEY := None |}.

(** The discovery route over the scripted world. *)
Definition discover (fuel : nat) (apiKey : string) :=
  ChannelDiscovery.fetchYouTubeChannels StringToNumber ObjectToNumber
    Script fetchSearch fetchChannels fuel apiKey.

Definition GET (fuel : nat) (request : ChannelDiscovery.Query) (e : ChannelDiscovery.Env) :=
  ChannelDiscovery.GET trim StringToNumber ObjectToNumber
    Script fetchSearch fetchChannels upsert fuel request e.

Definition runLoop (fuel : nat) (apiKey : string) (st : ChannelDiscovery.LoopState) :=
  ChannelDiscovery.loop StringToNumber ObjectToNumber
    Script fetchSearch fetchChannels fuel apiKey st.

(** Three search pages, the second with known ids only; the channels
    endpoint answers out of order, leaves ["b"] out, and hides the subscriber
    count of ["c"]. *)
Definition pagedWorld : Script :=
  {| searchScript :=
       [searchPage ["a"; "b"; "a"; "c"] (Some "T1");
        searchPage ["a"; "b"] (Some "T2");
        searchPage ["d"] None];
     channelsScript :=
       [channelsPage [("c", stats (JBool true) "12" "7" "3");
                      ("a", stats JUndefined "5" "x" "3")];
        channelsPage [("d", stats (JBool false) "1" "1" "1")]] |}.

(** What the discovery returns in [pagedWorld]. *)
Definition pagedChannels : list ChannelDiscovery.YouTubeChannel :=
  Eval vm_compute in
    match (discover 10 "key" pagedWorld).1.1 with
    | Returned channels => channels
    | _ => []
    end.

(** The search endpoint refuses the first request. *)
Definition forbidden : HttpResponse ChannelDiscovery.SearchData :=
  {| status := 403; text := "quota"; body_json := inl "Unexpected token" |}.

Definition forbiddenWorld : Script :=
  {| searchScript := [inr forbidden]; channelsScript := [] |}.

(** A first page with no item and a token, then a last page. *)
Definition emptyPage : HttpResponse ChannelDiscovery.SearchData :=
  {| status := 200; text := EmptyString;
     body_json := inr {| ChannelDiscovery.search_items := Some [];
                        ChannelDiscovery.nextPageToken := Some "T1" |} |}.

Definition afterEmptyPage : Script :=
  {| searchScript := [searchPage ["a"] None];
     channelsScript := [channelsPage [("a", stats JUndefined "5" "6" "7")]] |}.

Definition emptyPageWorld : Script :=
  {| searchScript := inr emptyPage :: searchScript afterEmptyPage;
     channelsScript := channelsScript afterEmptyPage |}.

(** A single page with no token, far below the cap. *)
Definition lastPageWorld : Script :=
  {| searchScript := [searchPage ["a"; "b"] None];
     channelsScript := [channelsPage [("a", stats JUndefined "5" "6" "7");
                                      ("b", stats JUndefined "8" "9" "10")]] |}.

Definition noBounds : ChannelDiscovery.Query :=
  {| ChannelDiscovery.get_minSubscribers := None;
     ChannelDiscovery.get_maxSubscribers := None |}.

Definition wideBounds : ChannelDiscovery.Query :=
  {| ChannelDiscovery.get_minSubscribers := Some "500";
     ChannelDiscovery.get_maxSubscribers := Some "50000" |}.

Definition highMinimum : ChannelDiscovery.Query :=
  {| ChannelDiscovery.get_minSubscribers := Some "20000";
     ChannelDiscovery.get_maxSubscribers := None |}.

(** A detail item with a hidden subscriber count that is reported all the
    same. *)
Definition hiddenItem : ChannelDiscovery.ChannelItem :=
  {| ChannelDiscovery.item_id := Some "c";
     ChannelDiscovery.snippet := None;
     ChannelDiscovery.statistics := Some (stats (JBool true) "12" "7" "3");
     ChannelDiscovery.item_etag := None |}.

(** The outside world of the video sync route: one response of the upstream
    API, served to every request, and a store that accepts every upsert. *)
Definition videoFetch (w : Fetched VideoSync.VideoData) (url : string)
  : Fetched VideoSync.VideoData * Fetched VideoSync.VideoData := (w, w).

Definition videoUpsert (w : Fetched VideoSync.VideoData) (client : VideoSync.SupabaseClient)
           (table : string) (rows : list VideoSync.VideoRow) (onConflict : string)
  : option string * Fetched VideoSync.VideoData := (None, w).

Definition videoEnv : VideoSync.Env :=
  {| VideoSync.YT_CHANNEL_ID := Some "UC123";
     VideoSync.YOUTUBE_API_KEY := Some "key";
     VideoSync.SUPABASE_URL := Some "https://db.example";
     VideoSync.SUPABASE_SERVICE_ROLE_KEY := Some "service" |}.

(** The upstream API answering with no item. *)
Definition noVideos : Fetched VideoSync.VideoData :=
  inr {| status := 200; text := "{items:[]}";
         body_json := inr {| VideoSync.items := Some [] |} |}.

(** The state in which the loop ends in [pagedWorld]. *)
Definition pagedFinalState : ChannelDiscovery.LoopState :=
  Eval vm_compute in
    match (runLoop 10 "key" ChannelDiscovery.initialState pagedWorld).1.1 with
    | Returned st => st
    | _ => ChannelDiscovery.initialState
    end.

(** A first page that holds more ids than the cap, with a token, and the
    details of the first hundred of them. *)
Definition manyIds (n : nat) : list string :=
  map (fun k => "ch" +:+ pretty k) (seq 0 n).

Definition fullWorld : Script :=
  {| searchScript := [searchPage (manyIds 120) (Some "T1"); searchPage ["zz"] None];
     channelsScript :=
       [channelsPage (map (fun i => (i, stats JUndefined "1" "2" "3")) (manyIds 100))] |}.

Definition runTurn (apiKey : string) (st : ChannelDiscovery.LoopState) :=
  ChannelDiscovery.iteration StringToNumber ObjectToNumber
    Script fetchSearch fetchChannels apiKey st.

(** The state the first turn leaves in [fullWorld]. *)
Definition fullState : ChannelDiscovery.LoopState :=
  Eval vm_compute in
    match (runTurn "key" ChannelDiscovery.initialState fullWorld).1.1 with
    | Returned (ChannelDiscovery.Continue st) => st
    | _ => ChannelDiscovery.initialState
    end.

(** A store that rejects every upsert. *)
Definition rejectingUpsert (w : Script) (client : ChannelDiscovery.SupabaseClient)
           (table : string) (rows : ChannelDiscovery.Rows) (onConflict : string)
  : option string * Script := (Some "permission denied", w).

Definition rejectedGET (fuel : nat) (request : ChannelDiscovery.Query)
           (e : ChannelDiscovery.Env) :=
  ChannelDiscovery.GET trim StringToNumber ObjectToNumber
    Script fetchSearch fetchChannels rejectingUpsert fuel request e.

Definition invertedBounds : ChannelDiscovery.Query :=
  {| ChannelDiscovery.get_minSubscribers := Some "500";
     ChannelDiscovery.get_maxSubscribers := Some "100" |}.

Definition negativeBound : ChannelDiscovery.Query :=
  {| ChannelDiscovery.get_minSubscribers := Some "-5";
     ChannelDiscovery.get_maxSubscribers := None |}.

(** An environment whose service role key is set to the empty string. *)
Definition emptyKeyEnv : ChannelDiscovery.Env :=
  {| ChannelDiscovery.YOUTUBE_API_KEY := Some "key";
     ChannelDiscovery.SUPABASE_URL := Some "https://db.example";
     ChannelDiscovery.SUPABASE_SERVICE_ROLE_KEY := Some EmptyString;
     ChannelDiscovery.SUPABASE_ANON_KEY := Some "anon" |}.

(** The items of the first page of [pagedWorld]. *)
Definition firstPageItems : list (option ChannelDiscovery.SearchItem) :=
  map (fun i => Some {| ChannelDiscovery.search_id :=
                          Some {| ChannelDiscovery.channelId := Some i |} |})
      ["a"; "b"; "a"; "c"].

(** Two videos, and a page whose second item has no snippet. *)
Definition video (i t : string) : VideoSync.VideoItem :=
  {| VideoSync.id := Some {| VideoSync.videoId := Some i |};
     VideoSync.snippet := Some {| VideoSync.title := Some t;
                                  VideoSync.publishedAt := Some "2024-01-01T00:00:00Z" |} |}.

Definition twoVideosRes : HttpResponse VideoSync.VideoData :=
  {| status := 200; text := "{items:[v1,v2]}";
     body_json := inr {| VideoSync.items := Some [video "v1" "one"; video "v2" "two"] |} |}.

Definition brokenVideosRes : HttpResponse VideoSync.VideoData :=
  {| status := 200; text := "{items:[v1,?]}";
     body_json :=
       inr {| VideoSync.items :=
                Some [video "v1" "one";
                      {| VideoSync.id := Some {| VideoSync.videoId := Some "v2" |};
                         VideoSync.snippet := None |}] |} |}.

Definition videoUpsertRejecting (w : Fetched VideoSync.VideoData)
           (client : VideoSync.SupabaseClient)
           (table : string) (rows : list VideoSync.VideoRow) (onConflict : string)
  : option string * Fetched VideoSync.VideoData := (Some "permission denied", w).

(** The environment of the video sync route without [SUPABASE_URL]. *)
Definition videoEnvNoUrl : VideoSync.Env :=
  {| VideoSync.YT_CHANNEL_ID := Some "UC123";
     VideoSync.YOUTUBE_API_KEY := Some "key";
     VideoSync.SUPABASE_URL := None;
     VideoSync.SUPABASE_SERVICE_ROLE_KEY := Some "service" |}.

Definition videoGET (w : Fetched VideoSync.VideoData) :=
  VideoSync.GET _ videoFetch videoUpsert videoEnv w.

End Examples.

(** * Properties of the channel discovery route *)

Import ChannelDiscovery.

(** ** The candidate ids of a page *)

(** What the loop over the items of a page adds: ids that are new, pairwise
    distinct and truthy, and no more of them than the remaining quota. *)
Lemma collectCandidates_spec items remaining :
  ∀ candidateIds seen candidateIds' seen',
    collectCandidates items remaining candidateIds seen = (candidateIds', seen') →
    ∃ new,
      candidateIds' = candidateIds ++ new ∧
      seen' = list_to_set new ∪ seen ∧
      NoDup new ∧
      (∀ i, i ∈ new → i ∉ seen) ∧
      (length candidateIds < remaining → length candidateIds' ≤ remaining).
Proof.
  induction items as [|item rest IH]; intros cands seen cands' seen' H; simpl in H.
  - injection H as <- <-. exists []. rewrite app_nil_r.
    repeat split; [set_solver | constructor | set_solver | lia].
  - destruct (channelIdOf item) as [i|] eqn:Hid; [|by apply IH].
    destruct (negb (truthyStr (Some i)) || bool_decide (i ∈ seen)) eqn:Hskip;
      [by apply IH|].
    apply orb_false_elim in Hskip as [_ Hnew].
    apply bool_decide_eq_false in Hnew.
    destruct (remaining <=? length (cands ++ [i])) eqn:Hfull.
    + injection H as <- <-. exists [i].
      repeat split; [set_solver | apply NoDup_singleton | set_solver |].
      apply Nat.leb_le in Hfull. rewrite length_app in *. simpl in *. lia.
    + apply IH in H as (new & -> & -> & Hnd & Hfresh & Hlen).
      apply Nat.leb_gt in Hfull.
      exists (i :: new). rewrite <- app_assoc. simpl.
      repeat split.
      * set_solver.
      * constructor; [|done]. intros Hin. apply Hfresh in Hin. set_solver.
      * intros j Hj. apply elem_of_cons in Hj as [->|Hj]; [done|].
        apply Hfresh in Hj. set_solver.
      * intros _. rewrite <- app_assoc in Hlen. simpl in Hlen. apply Hlen.
        done.
Qed.

(** A page that adds no candidate leaves the set of seen ids as it was. *)
Lemma collectCandidates_none items remaining seen seen' :
  collectCandidates items remaining [] seen = ([], seen') → seen' = seen.
Proof.
  intros H. apply collectCandidates_spec in H as (new & Hnew & -> & _).
  simpl in Hnew. subst new. set_solver.
Qed.

(** ** The merge *)

Lemma mergeDetails_app detailMap candidateIds :
  ∀ collected,
    mergeDetails detailMap candidateIds collected
    = collected ++ omap (λ i, detailMap !! i) candidateIds.
Proof.
  unfold mergeDetails.
  induction candidateIds as [|i rest IH]; intros collected; simpl.
  - by rewrite app_nil_r.
  - rewrite IH. unfold mergeStep. destruct (detailMap !! i); [|done].
    by rewrite <- app_assoc.
Qed.

(** The ids of the records found for a batch, when every record of the map
    is stored under its own id: the ids of the batch that have a record, in
    the order of the batch. *)
Lemma found_ids (detailMap : gmap string YouTubeChannel) (candidateIds : list string) :
  (∀ k channel, detailMap !! k = Some channel → id channel = k) →
  id <$> omap (λ i, detailMap !! i) candidateIds
  = filter (λ i, is_Some (detailMap !! i)) candidateIds.
Proof.
  intros Hkey. induction candidateIds as [|i rest IH]; [done|].
  simpl. rewrite filter_cons. destruct (detailMap !! i) as [channel|] eqn:Hi.
  - rewrite decide_True by eauto. simpl. f_equal; [by apply Hkey | apply IH].
  - rewrite decide_False by (by intros [? ?]). done.
Qed.

Section DiscoveryProperties.

Variable trim : string -> string.
Variable StringToNumber : string -> jsnum.
Variable ObjectToNumber : JsVal -> jsnum.
Variable World : Type.
Variable fetchSearch : World -> Url -> Fetched SearchData * World.
Variable fetchChannels : World -> Url -> Fetched ChannelsData * World.
Variable upsert :
  World -> SupabaseClient -> string -> Rows -> string -> option string * World.

Local Abbreviation numberOrUndefined := (numberOrUndefined StringToNumber ObjectToNumber).
Local Abbreviation parseBound := (parseBound trim StringToNumber ObjectToNumber).
Local Abbreviation channelOf := (channelOf StringToNumber ObjectToNumber).
Local Abbreviation buildDetailMap := (buildDetailMap StringToNumber ObjectToNumber).
Local Abbreviation detailStep := (detailStep StringToNumber ObjectToNumber).
Local Abbreviation iteration :=
  (iteration StringToNumber ObjectToNumber World fetchSearch fetchChannels).
Local Abbreviation IterationRun :=
  (IterationRun StringToNumber ObjectToNumber World fetchSearch fetchChannels).
Local Abbreviation LoopRun :=
  (LoopRun StringToNumber ObjectToNumber World fetchSearch fetchChannels).
Local Abbreviation loop :=
  (loop StringToNumber ObjectToNumber World fetchSearch fetchChannels).
Local Abbreviation fetchYouTubeChannels :=
  (fetchYouTubeChannels StringToNumber ObjectToNumber World fetchSearch fetchChannels).
Local Abbreviation validateBounds := (validateBounds trim StringToNumber ObjectToNumber).
Local Abbreviation refresh :=
  (refresh StringToNumber ObjectToNumber World fetchSearch fetchChannels upsert).
Local Abbreviation afterValidation :=
  (afterValidation StringToNumber ObjectToNumber World fetchSearch fetchChannels upsert).
Local Abbreviation GET :=
  (GET trim StringToNumber ObjectToNumber World fetchSearch fetchChannels upsert).

(** Every record of the detail map is stored under its own id. *)
Lemma buildDetailMap_key items k channel :
  buildDetailMap items !! k = Some channel → id channel = k.
Proof.
  unfold ChannelDiscovery.buildDetailMap.
  assert (Hgen : ∀ (m : gmap string YouTubeChannel),
             (∀ k c, m !! k = Some c → id c = k) →
             ∀ k c, foldl detailStep m items !! k = Some c → id c = k).
  { induction items as [|item rest IH]; intros m Hm; [exact Hm|].
    simpl. apply IH. intros k' c'. unfold ChannelDiscovery.detailStep.
    destruct item as [it|]; [|apply Hm].
    destruct (item_id it) as [i|]; [|apply Hm].
    destruct (negb (truthyStr (Some i))); [apply Hm|].
    rewrite lookup_insert. case_decide as Hk.
    - subst k'. intros [= <-]. reflexivity.
    - apply Hm. }
  apply Hgen. intros k' c'. by rewrite lookup_empty.
Qed.

(** C9: the merge appends to the accumulated list the detail records of the
    candidate ids, going through the candidate ids in their discovery order
    whatever the order of the detail response, and a candidate id with no
    detail record adds nothing: the ids appended are the candidate ids that
    have a record, in the order of the candidates. *)
Theorem merge_follows_discovery_order :
  ∀ (items : list (option ChannelItem)) (candidateIds : list string)
    (collected : list YouTubeChannel),
    let detailMap := buildDetailMap items in
    let merged := mergeDetails detailMap candidateIds collected in
    merged = collected ++ omap (λ i, detailMap !! i) candidateIds ∧
    id <$> drop (length collected) merged
    = filter (λ i, is_Some (detailMap !! i)) candidateIds ∧
    (∀ i, detailMap !! i = None → i ∉ id <$> drop (length collected) merged).
Proof.
  intros items cands collected detailMap merged.
  assert (Hm : merged = collected ++ omap (λ i, detailMap !! i) cands)
    by apply mergeDetails_app.
  assert (Hids : id <$> drop (length collected) merged
                 = filter (λ i, is_Some (detailMap !! i)) cands).
  { rewrite Hm, drop_app_length. apply found_ids.
    intros k c. apply buildDetailMap_key. }
  repeat split; [done..|].
  intros i Hnone. rewrite Hids. intros Hin.
  apply list_elem_of_filter in Hin as [[c Hc] _]. congruence.
Qed.

(** ** The detail records *)

(** C10: a detail item whose statistics carry a truthy
    [hiddenSubscriberCount] gives a record with no [subscriberCount], whatever
    the statistics report as [subscriberCount], and a stats row whose
    [subscriber_count] is null; [viewCount] and [videoCount] are read from
    their own fields alone, so two items that agree on these fields get the
    same [viewCount] and [videoCount] whatever their flags. *)
Theorem hidden_subscriber_count_is_dropped :
  ∀ (i : string) (item : ChannelItem) (stats : Statistics)
    (detailMap : gmap string YouTubeChannel),
    item_id item = Some i →
    truthyStr (Some i) = true →
    statistics item = Some stats →
    truthy (hiddenSubscriberCount stats) = true →
    detailStep detailMap (Some item) !! i = Some (channelOf i item) ∧
    subscriberCount (channelOf i item) = None ∧
    subscriber_count (statsRowOf (channelOf i item)) = None ∧
    viewCount (channelOf i item) = numberOrUndefined (stat_viewCount stats) ∧
    videoCount (channelOf i item) = numberOrUndefined (stat_videoCount stats) ∧
    (∀ (item' : ChannelItem) (stats' : Statistics),
        statistics item' = Some stats' →
        stat_viewCount stats' = stat_viewCount stats →
        stat_videoCount stats' = stat_videoCount stats →
        viewCount (channelOf i item') = viewCount (channelOf i item) ∧
        videoCount (channelOf i item') = videoCount (channelOf i item) ∧
        view_count (statsRowOf (channelOf i item'))
        = view_count (statsRowOf (channelOf i item)) ∧
        video_count (statsRowOf (channelOf i item'))
        = video_count (statsRowOf (channelOf i item))).
Proof.
  intros i item stats detailMap Hid Hi Hstats Hhidden.
  split.
  { unfold ChannelDiscovery.detailStep. rewrite Hid, Hi. simpl.
    apply lookup_insert_eq. }
  unfold ChannelDiscovery.channelOf, statsRowOf. simpl.
  rewrite Hstats. simpl. rewrite Hhidden.
  do 4 (split; [reflexivity|]).
  intros item' stats' Hstats' Hview Hvideo.
  rewrite Hstats'. simpl. rewrite Hview, Hvideo.
  repeat split; reflexivity.
Qed.

(** ** The bounds *)

(** C7: with both parameters parsed, a [minSubscribers] above 10000 is
    answered at once with a 400 and its message, and no outbound call; a
    [maxSubscribers] above 10000, with [minSubscribers] at most 10000, is
    brought down to 10000 and the request goes on. *)
Theorem bound_validation_is_asymmetric :
  ∀ (request : Query) (env : Env) (fuel : nat) (w : World) (lower upper : Z),
    parseBound (get_minSubscribers request) 0%Z = inr lower →
    parseBound (get_maxSubscribers request) MAX_ALLOWED_SUBSCRIBERS = inr upper →
    ((10000 < lower)%Z →
     GET fuel request env w
     = (Returned
          (json (errorBody "minSubscribers must be less than or equal to 10000") 400),
        [], w)) ∧
    ((lower ≤ 10000)%Z → (10000 < upper)%Z →
     validateBounds request = inr (lower, 10000%Z) ∧
     GET fuel request env w = afterValidation lower 10000%Z fuel env w).
Proof.
  intros request env fuel w lower upper Hmin Hmax.
  unfold ChannelDiscovery.GET, ChannelDiscovery.validateBounds.
  rewrite Hmin, Hmax. unfold MAX_ALLOWED_SUBSCRIBERS. split.
  - intros Hlt. apply Z.ltb_lt in Hlt. rewrite Hlt. reflexivity.
  - intros Hle Hlt.
    assert (H1 : (10000 <? lower)%Z = false) by (apply Z.ltb_ge; lia).
    assert (H2 : (10000 <? upper)%Z = true) by (apply Z.ltb_lt; lia).
    rewrite H1, H2, H1. split; reflexivity.
Qed.

(** C2: two requests whose parameters both pass the validation are handled
    alike in the same world: same response, same outbound calls (so the same
    channel rows and stats rows upserted), same world left. *)
Theorem bounds_never_filter :
  ∀ (request1 request2 : Query) (bounds1 bounds2 : Z * Z)
    (fuel : nat) (env : Env) (w : World),
    validateBounds request1 = inr bounds1 →
    validateBounds request2 = inr bounds2 →
    GET fuel request1 env w = GET fuel request2 env w.
Proof.
  intros request1 request2 [min1 max1] [min2 max2] fuel env w H1 H2.
  unfold ChannelDiscovery.GET. rewrite H1, H2. reflexivity.
Qed.

(** ** One turn of the loop *)

Lemma iteration_run apiKey st w :
  match iteration apiKey st w with
  | (o, t, w') => IterationRun apiKey st w o t w'
  end.
Proof.
  unfold ChannelDiscovery.iteration, bind, fetchSearchM, fetchChannelsM, jsonOf.
  destruct (fetchSearch w _) as [[message|searchRes] w1] eqn:Hsearch.
  { by apply RunSearchRejected. }
  destruct (ok searchRes) eqn:Hok; simpl.
  2: { by apply RunSearchFailed. }
  destruct (body_json searchRes) as [message|searchData] eqn:Hjson; simpl.
  { by eapply RunSearchMalformed. }
  destruct (collectCandidates _ _ _ _) as [candidateIds seen'] eqn:Hcands.
  destruct candidateIds as [|c candidateIds]; simpl.
  { pose proof (RunNoCandidate StringToNumber ObjectToNumber World fetchSearch
                  fetchChannels apiKey st w searchRes searchData seen' w1
                  Hsearch Hok Hjson Hcands) as Hrun.
    simpl in Hrun. by destruct (truthyStr (nextPageToken searchData)). }
  destruct (fetchChannels w1 _) as [detail w2] eqn:Hdetail.
  pose proof (RunDetail StringToNumber ObjectToNumber World fetchSearch
                fetchChannels apiKey st w searchRes searchData (c :: candidateIds)
                seen' w1 detail w2 Hsearch Hok Hjson Hcands ltac:(done) Hdetail)
    as Hrun.
  simpl in Hrun.
  destruct detail as [message|detailRes]; simpl; [done|].
  destruct (ok detailRes); simpl; [|done].
  destruct (body_json detailRes) as [message|detailData]; simpl; [done|].
  by destruct (truthyStr (nextPageToken searchData)).
Qed.

(** A turn never runs out of fuel. *)
Lemma iteration_run_fuel apiKey st w t w' :
  ¬ IterationRun apiKey st w OutOfFuel t w'.
Proof.
  intros H. remember (@OutOfFuel Control) as o eqn:Ho.
  destruct H as [| | | |? ? ? ? ? detail]; try discriminate Ho.
  destruct detail as [|detailRes]; [discriminate Ho|].
  destruct (ok detailRes); [|discriminate Ho].
  destruct (body_json detailRes); discriminate Ho.
Qed.

(** ** The loop *)

Lemma loop_run apiKey fuel :
  ∀ st w,
    match loop fuel apiKey st w with
    | (o, t, w') => LoopRun apiKey st w o t w'
    end.
Proof.
  induction fuel as [|fuel IH]; intros st w; simpl.
  - destruct (length (collected st) <? MAX_RESULTS) eqn:Hcap.
    + apply Nat.ltb_lt in Hcap. by apply LoopOutOfFuel.
    + apply Nat.ltb_ge in Hcap. by apply LoopCapReached.
  - destruct (length (collected st) <? MAX_RESULTS) eqn:Hcap.
    2: { apply Nat.ltb_ge in Hcap. by apply LoopCapReached. }
    apply Nat.ltb_lt in Hcap. unfold bind.
    pose proof (iteration_run apiKey st w) as Hrun.
    destruct (iteration apiKey st w) as [[[[st1|st1]|message|] t1] w1].
    + specialize (IH st1 w1).
      destruct (loop fuel apiKey st1 w1) as [[o t2] w2].
      by eapply LoopContinue.
    + simpl. rewrite app_nil_r. by apply LoopBreak.
    + by apply LoopThrown.
    + by apply iteration_run_fuel in Hrun.
Qed.

(** ** What the loop maintains *)

Lemma searchUrl_maxResults apiKey remaining token :
  params_get "maxResults" (searchParams (searchUrlOf apiKey remaining token))
  = Some (pretty (CHUNK_SIZE `min` remaining)).
Proof.
  unfold searchUrlOf. destruct token as [t|]; [|reflexivity].
  destruct (truthyStr (Some t)); reflexivity.
Qed.

Lemma searchUrl_pageToken apiKey remaining token :
  truthyStr token = true →
  params_get "pageToken" (searchParams (searchUrlOf apiKey remaining token)) = token.
Proof.
  intros Htoken. unfold searchUrlOf. destruct token as [t|]; [|done].
  rewrite Htoken. reflexivity.
Qed.

Lemma searchCall_pageSize apiKey st res :
  length (collected st) < MAX_RESULTS →
  pageSizeWithin
    (SearchCall (searchUrlOf apiKey (MAX_RESULTS - length (collected st)) (pageToken st))
                res).
Proof.
  intros Hcap. eexists. split; [apply searchUrl_maxResults|].
  unfold CHUNK_SIZE, MAX_RESULTS in *. lia.
Qed.

Lemma iteration_pageSize apiKey st w o t w' :
  IterationRun apiKey st w o t w' →
  length (collected st) < MAX_RESULTS →
  Forall pageSizeWithin t.
Proof.
  intros Hrun Hcap.
  destruct Hrun; repeat constructor; by apply searchCall_pageSize.
Qed.

(** The state a turn leaves satisfies the invariant again. *)
Lemma merged_invariant (detailMap : gmap string YouTubeChannel)
      (candidateIds : list string) st seen' token :
  (∀ k channel, detailMap !! k = Some channel → id channel = k) →
  Invariant st →
  NoDup candidateIds →
  (∀ i, i ∈ candidateIds → i ∉ seen st) →
  length candidateIds ≤ MAX_RESULTS - length (collected st) →
  seen' = list_to_set candidateIds ∪ seen st →
  Invariant {| collected := mergeDetails detailMap candidateIds (collected st);
               seen := seen'; pageToken := token |}.
Proof.
  intros Hkey (Hlen & Hnd & Hseen) Hcands Hfresh Hquota ->.
  unfold Invariant. simpl. rewrite mergeDetails_app.
  pose proof (found_ids detailMap candidateIds Hkey) as Hids.
  assert (Hfound : length (omap (λ i, detailMap !! i) candidateIds)
                   ≤ length candidateIds).
  { rewrite <- (length_fmap id), Hids. apply length_filter. }
  repeat split.
  - rewrite length_app. lia.
  - rewrite fmap_app, Hids. apply NoDup_app. repeat split.
    + done.
    + intros i Hi Hi'. apply list_elem_of_filter in Hi' as [_ Hi'].
      apply list_elem_of_fmap in Hi as (c & -> & Hc).
      by apply (Hfresh _ Hi'), Hseen.
    + by apply NoDup_filter.
  - intros c Hc. apply elem_of_app in Hc as [Hc|Hc].
    + apply elem_of_union_r. by apply Hseen.
    + apply elem_of_union_l, elem_of_list_to_set.
      assert (Hin : id c ∈ id <$> omap (λ i, detailMap !! i) candidateIds)
        by (apply list_elem_of_fmap; eauto).
      rewrite Hids in Hin. by apply list_elem_of_filter in Hin as [_ Hin].
Qed.

Lemma iteration_invariant apiKey st w o t w' :
  IterationRun apiKey st w o t w' →
  length (collected st) < MAX_RESULTS →
  Invariant st →
  ∀ st', o = Returned (Continue st') ∨ o = Returned (Break st') → Invariant st'.
Proof.
  intros Hrun Hcap Hinv st' Ho.
  destruct Hrun as [| | |searchRes searchData seen' w1 remaining searchUrl _ _ _ Hcands stN
                   |searchRes searchData candidateIds seen' w1 detail w2 remaining
                      searchUrl _ _ _ Hcands _ detailUrl _ stOf];
    try (by destruct Ho as [Ho|Ho]; discriminate Ho).
  - apply collectCandidates_none in Hcands as ->.
    assert (st' = stN) as ->
        by (destruct (truthyStr (nextPageToken searchData)), Ho as [Ho|Ho];
            congruence).
    exact Hinv.
  - destruct detail as [message|detailRes];
      [by destruct Ho as [Ho|Ho]; discriminate Ho|].
    destruct (ok detailRes); [|by destruct Ho as [Ho|Ho]; discriminate Ho].
    destruct (body_json detailRes) as [message|detailData];
      [by destruct Ho as [Ho|Ho]; discriminate Ho|].
    assert (st' = stOf detailData) as ->
        by (destruct (truthyStr (nextPageToken searchData)), Ho as [Ho|Ho];
            congruence).
    apply collectCandidates_spec in Hcands as (new & Hnew & Hseen & Hnd & Hfresh & Hquota).
    simpl in Hnew. subst new. subst stOf. simpl.
    apply merged_invariant; try done.
    + intros k c. apply buildDetailMap_key.
    + apply Hquota. simpl. subst remaining. lia.
Qed.

Lemma loop_pageSize apiKey st w o t w' :
  LoopRun apiKey st w o t w' → Forall pageSizeWithin t.
Proof.
  induction 1 as [| |st w st' t w' Hcap Hrun|st w message t w' Hcap Hrun
                 |st w st1 t1 w1 o t2 w2 Hcap Hrun _ IH];
    try constructor; try (by eapply iteration_pageSize).
  apply Forall_app. split; [by eapply iteration_pageSize | exact IH].
Qed.

Lemma loop_invariant apiKey st w o t w' :
  LoopRun apiKey st w o t w' →
  Invariant st →
  ∀ st', o = Returned st' → Invariant st'.
Proof.
  induction 1 as [| |st w st1 t w' Hcap Hrun|st w message t w' Hcap Hrun
                 |st w st1 t1 w1 o t2 w2 Hcap Hrun _ IH];
    intros Hinv st' Ho; try discriminate Ho.
  - by injection Ho as <-.
  - injection Ho as <-. eapply iteration_invariant; eauto.
  - apply IH; [|done]. eapply iteration_invariant; eauto.
Qed.

Lemma initialState_invariant : Invariant initialState.
Proof.
  unfold Invariant, initialState, MAX_RESULTS. simpl.
  repeat split; [lia | constructor | intros c Hc; by apply elem_of_nil in Hc].
Qed.

(** [fetchYouTubeChannels] is the loop followed by the [slice]. *)
Lemma fetchYouTubeChannels_run fuel apiKey w :
  fetchYouTubeChannels fuel apiKey w
  = match loop fuel apiKey initialState w with
    | (Returned st, t, w') => (Returned (take MAX_RESULTS (collected st)), t, w')
    | (Thrown message, t, w') => (Thrown message, t, w')
    | (OutOfFuel, t, w') => (OutOfFuel, t, w')
    end.
Proof.
  unfold ChannelDiscovery.fetchYouTubeChannels, bind.
  destruct (loop fuel apiKey initialState w) as [[[st|message|] t] w']; [|done..].
  simpl. by rewrite app_nil_r.
Qed.

(** C3: whatever the upstream answers and however long the loop is run, the
    list the loop has accumulated when it ends has at most 100 channels, so
    has the list [fetchYouTubeChannels] returns, and every search request
    made on the way asks for a page of at least 1 and at most 50 results. *)
Theorem discovery_within_cap_and_chunk :
  ∀ (fuel : nat) (apiKey : string) (w : World),
    (∀ st, (loop fuel apiKey initialState w).1.1 = Returned st →
           length (collected st) ≤ 100) ∧
    (∀ channels, (fetchYouTubeChannels fuel apiKey w).1.1 = Returned channels →
                 length channels ≤ 100) ∧
    (∀ url res, SearchCall url res ∈ (fetchYouTubeChannels fuel apiKey w).1.2 →
                ∃ n, params_get "maxResults" (searchParams url) = Some (pretty n) ∧
                     1 ≤ n ≤ 50).
Proof.
  intros fuel apiKey w.
  rewrite fetchYouTubeChannels_run.
  pose proof (loop_run apiKey fuel initialState w) as Hrun.
  destruct (loop fuel apiKey initialState w) as [[o t] w'].
  pose proof (loop_invariant _ _ _ _ _ _ Hrun initialState_invariant) as Hinv.
  pose proof (loop_pageSize _ _ _ _ _ _ Hrun) as Hsize.
  assert (Hcalls : ∀ url res, SearchCall url res ∈ t →
             ∃ n, params_get "maxResults" (searchParams url) = Some (pretty n) ∧
                  1 ≤ n ≤ 50).
  { intros url res Hin. rewrite Forall_forall in Hsize. exact (Hsize _ Hin). }
  simpl. split; [|split].
  - intros st ->. by destruct (Hinv st eq_refl) as [Hlen _].
  - destruct o as [st|message|]; simpl; intros channels [= <-].
    rewrite length_take. unfold MAX_RESULTS. lia.
  - destruct o as [st|message|]; simpl; exact Hcalls.
Qed.

(** C4: the channels [fetchYouTubeChannels] returns have pairwise distinct
    ids, whatever the upstream answers. *)
Theorem discovery_ids_distinct :
  ∀ (fuel : nat) (apiKey : string) (w : World) (channels : list YouTubeChannel),
    (fetchYouTubeChannels fuel apiKey w).1.1 = Returned channels →
    NoDup (id <$> channels).
Proof.
  intros fuel apiKey w channels. rewrite fetchYouTubeChannels_run.
  pose proof (loop_run apiKey fuel initialState w) as Hrun.
  destruct (loop fuel apiKey initialState w) as [[[st|message|] t] w'];
    simpl; intros [= <-].
  destruct (loop_invariant _ _ _ _ _ _ Hrun initialState_invariant st eq_refl)
    as (_ & Hnd & _).
  rewrite <- (take_drop MAX_RESULTS (collected st)), fmap_app in Hnd.
  by apply NoDup_app in Hnd as [Hnd _].
Qed.

(** ** Unfolding the loop *)

Lemma loop_unfold fuel apiKey st w :
  loop (S fuel) apiKey st w
  = if length (collected st) <? MAX_RESULTS then
      match iteration apiKey st w with
      | (Returned (Continue st1), t1, w1) =>
          match loop fuel apiKey st1 w1 with
          | (o, t2, w2) => (o, t1 ++ t2, w2)
          end
      | (Returned (Break st1), t1, w1) => (Returned st1, t1, w1)
      | (Thrown message, t1, w1) => (Thrown message, t1, w1)
      | (OutOfFuel, t1, w1) => (OutOfFuel, t1, w1)
      end
    else (Returned st, [], w).
Proof.
  simpl. destruct (length (collected st) <? MAX_RESULTS); [|done].
  unfold bind.
  destruct (iteration apiKey st w) as [[[[st1|st1]|message|] t1] w1]; try done.
  simpl. by rewrite app_nil_r.
Qed.

(** A turn on a page with no new candidate id. *)
Lemma iteration_no_candidate apiKey st w searchRes searchData w1 seen' :
  let remaining := MAX_RESULTS - length (collected st) in
  let searchUrl := searchUrlOf apiKey remaining (pageToken st) in
  fetchSearch w searchUrl = (inr searchRes, w1) →
  ok searchRes = true →
  body_json searchRes = inr searchData →
  collectCandidates (nullish (search_items searchData) []) remaining [] (seen st)
  = ([], seen') →
  let st' := {| collected := collected st; seen := seen st;
                pageToken := nextPageToken searchData |} in
  iteration apiKey st w
  = (Returned (if truthyStr (nextPageToken searchData) then Continue st' else Break st'),
     [SearchCall searchUrl (inr searchRes)], w1).
Proof.
  intros remaining searchUrl Hfetch Hok Hjson Hcands st'.
  pose proof (collectCandidates_none _ _ _ _ Hcands) as ->.
  unfold ChannelDiscovery.iteration, bind, fetchSearchM, jsonOf. cbv zeta.
  fold remaining. fold searchUrl. rewrite Hfetch, Hok. simpl.
  rewrite Hjson. simpl. rewrite Hcands. simpl.
  by destruct (truthyStr (nextPageToken searchData)).
Qed.

(** Every turn starts with the search request of its state. *)
Lemma iteration_first_call apiKey st w o t w' :
  IterationRun apiKey st w o t w' →
  ∃ res t',
    t = SearchCall (searchUrlOf apiKey (MAX_RESULTS - length (collected st))
                                (pageToken st)) res :: t' ∧
    List.filter isSearch t' = [].
Proof. destruct 1; eexists _, _; split; reflexivity. Qed.

(** C8: a page that yields no new candidate id does not end the loop while
    it carries a continuation token: the loop goes on from the same
    accumulated list and the same set of seen ids, and its next request is
    the search request for the page of that token; with no token the loop
    stops there and returns what it has accumulated. *)
Theorem empty_page_advances :
  ∀ (fuel : nat) (apiKey : string) (st : LoopState) (w w1 : World)
    (searchRes : HttpResponse SearchData) (searchData : SearchData)
    (seen' : gset string),
    let remaining := MAX_RESULTS - length (collected st) in
    let searchUrl := searchUrlOf apiKey remaining (pageToken st) in
    let st' := {| collected := collected st; seen := seen st;
                  pageToken := nextPageToken searchData |} in
    length (collected st) < MAX_RESULTS →
    fetchSearch w searchUrl = (inr searchRes, w1) →
    ok searchRes = true →
    body_json searchRes = inr searchData →
    collectCandidates (nullish (search_items searchData) []) remaining [] (seen st)
    = ([], seen') →
    (truthyStr (nextPageToken searchData) = true →
     loop (S fuel) apiKey st w
     = (match loop fuel apiKey st' w1 with
        | (o, t, w') => (o, SearchCall searchUrl (inr searchRes) :: t, w')
        end) ∧
     (∃ res t,
         (loop (S (S fuel)) apiKey st w).1.2
         = SearchCall searchUrl (inr searchRes)
             :: SearchCall (searchUrlOf apiKey remaining (nextPageToken searchData)) res
             :: t) ∧
     params_get "pageToken"
       (searchParams (searchUrlOf apiKey remaining (nextPageToken searchData)))
     = nextPageToken searchData) ∧
    (truthyStr (nextPageToken searchData) = false →
     loop (S fuel) apiKey st w
     = (Returned st', [SearchCall searchUrl (inr searchRes)], w1)).
Proof.
  intros fuel apiKey st w w1 searchRes searchData seen' remaining searchUrl st'
         Hcap Hfetch Hok Hjson Hcands.
  pose proof (iteration_no_candidate apiKey st w searchRes searchData w1 seen'
                Hfetch Hok Hjson Hcands) as Hturn.
  cbv zeta in Hturn. fold remaining searchUrl st' in Hturn.
  assert (Hstep : ∀ fuel', truthyStr (nextPageToken searchData) = true →
            loop (S fuel') apiKey st w
            = (match loop fuel' apiKey st' w1 with
               | (o, t, w') => (o, SearchCall searchUrl (inr searchRes) :: t, w')
               end)).
  { intros fuel' Htoken. rewrite loop_unfold.
    apply Nat.ltb_lt in Hcap. rewrite Hcap, Hturn, Htoken. done. }
  split.
  - intros Htoken. split; [by apply Hstep|]. split.
    + rewrite (Hstep (S fuel) Htoken), loop_unfold.
      assert (Hcap' : (length (collected st') <? MAX_RESULTS) = true).
      { by apply Nat.ltb_lt. }
      rewrite Hcap'.
      pose proof (iteration_run apiKey st' w1) as Hrun.
      destruct (iteration apiKey st' w1) as [[o1 t1] w2].
      apply iteration_first_call in Hrun as (res & t' & -> & _).
      exists res.
      destruct o1 as [[st2|st2]| |]; [|by eexists..].
      destruct (loop fuel apiKey st2 w2) as [[o2 t2] w3]. by eexists.
    + by apply searchUrl_pageToken.
  - intros Htoken. rewrite loop_unfold.
    apply Nat.ltb_lt in Hcap. by rewrite Hcap, Hturn, Htoken.
Qed.

(** C5: when the response to the search request carries no continuation
    token, the loop is over after that one page, however far the list it has
    accumulated is below the cap: from any state below the cap, and so for
    [fetchYouTubeChannels], the run ends (one unit of fuel is enough) and
    its trace has exactly one search request. *)
Theorem no_token_one_page :
  ∀ (fuel : nat) (apiKey : string) (w : World),
    (∀ url searchRes w1 searchData,
        fetchSearch w url = (inr searchRes, w1) →
        body_json searchRes = inr searchData →
        truthyStr (nextPageToken searchData) = false) →
    (∀ st, length (collected st) < MAX_RESULTS →
           (loop (S fuel) apiKey st w).1.1 ≠ OutOfFuel ∧
           length (List.filter isSearch (loop (S fuel) apiKey st w).1.2) = 1) ∧
    (fetchYouTubeChannels (S fuel) apiKey w).1.1 ≠ OutOfFuel ∧
    length (List.filter isSearch (fetchYouTubeChannels (S fuel) apiKey w).1.2) = 1.
Proof.
  intros fuel apiKey w Hlast.
  assert (Hloop : ∀ st, length (collected st) < MAX_RESULTS →
            (loop (S fuel) apiKey st w).1.1 ≠ OutOfFuel ∧
            length (List.filter isSearch (loop (S fuel) apiKey st w).1.2) = 1).
  { intros st Hcap. rewrite loop_unfold.
    apply Nat.ltb_lt in Hcap. rewrite Hcap.
    pose proof (iteration_run apiKey st w) as Hrun.
    destruct (iteration apiKey st w) as [[o t] w'].
    pose proof (iteration_first_call _ _ _ _ _ _ Hrun) as (res & t' & -> & Hone).
    assert (Hcount : length (List.filter isSearch (SearchCall
              (searchUrlOf apiKey (MAX_RESULTS - length (collected st)) (pageToken st))
              res :: t')) = 1) by (simpl; by rewrite Hone).
    destruct o as [[st1|st1]|message|]; simpl.
    - exfalso. remember (Returned (Continue st1)) as o eqn:Ho.
      destruct Hrun as [| | |searchRes searchData ? ? ? ? Hfetch _ Hjson
                       |searchRes searchData ? ? ? detail ? ? ? Hfetch _ Hjson];
        try discriminate Ho.
      + by rewrite (Hlast _ _ _ _ Hfetch Hjson) in Ho.
      + rewrite (Hlast _ _ _ _ Hfetch Hjson) in Ho.
        destruct detail as [|detailRes]; [discriminate Ho|].
        destruct (ok detailRes); [|discriminate Ho].
        destruct (body_json detailRes); discriminate Ho.
    - by split.
    - by split.
    - by apply iteration_run_fuel in Hrun. }
  split; [exact Hloop|].
  rewrite fetchYouTubeChannels_run.
  destruct (Hloop initialState) as [Hfuel Hone];
    [unfold initialState, MAX_RESULTS; simpl; lia|].
  destruct (loop (S fuel) apiKey initialState w) as [[[st|message|] t] w'];
    by split.
Qed.

(** ** Responses that are not a success *)

Lemma iteration_surfaced apiKey st w o t w' :
  IterationRun apiKey st w o t w' →
  ∀ e message, e ∈ t → surfacedError e = Some message → o = Thrown message.
Proof.
  intros Hrun e message Hin Herr.
  destruct Hrun as [| | | |? ? ? ? ? detail ? ? ? ? Hok];
    repeat (apply elem_of_cons in Hin as [->|Hin]);
    try (by apply elem_of_nil in Hin); simpl in Herr;
    try discriminate Herr.
  - rewrite H0 in Herr. by injection Herr as <-.
  - by rewrite H0 in Herr.
  - by rewrite H0 in Herr.
  - by rewrite Hok in Herr.
  - destruct detail as [|detailRes]; [discriminate Herr|].
    destruct (ok detailRes); [discriminate Herr|]. by injection Herr as <-.
Qed.

Lemma loop_surfaced apiKey st w o t w' :
  LoopRun apiKey st w o t w' →
  ∀ e message, e ∈ t → surfacedError e = Some message → o = Thrown message.
Proof.
  induction 1 as [| |st w st' t w' Hcap Hrun|st w msg t w' Hcap Hrun
                 |st w st1 t1 w1 o t2 w2 Hcap Hrun _ IH];
    intros e message Hin Herr.
  - by apply elem_of_nil in Hin.
  - by apply elem_of_nil in Hin.
  - pose proof (iteration_surfaced _ _ _ _ _ _ Hrun _ _ Hin Herr) as Hc.
    discriminate Hc.
  - pose proof (iteration_surfaced _ _ _ _ _ _ Hrun _ _ Hin Herr) as Hc.
    by injection Hc as <-.
  - apply elem_of_app in Hin as [Hin|Hin]; [|by eapply IH].
    pose proof (iteration_surfaced _ _ _ _ _ _ Hrun _ _ Hin Herr) as Hc.
    discriminate Hc.
Qed.

Lemma loop_no_upsert apiKey st w o t w' :
  LoopRun apiKey st w o t w' → Forall (λ e, isUpsert e = false) t.
Proof.
  induction 1 as [| |? ? ? ? ? ? Hrun|? ? ? ? ? ? Hrun|? ? ? ? ? ? ? ? ? Hrun _ IH];
    try constructor; destruct Hrun; by repeat constructor.
Qed.

(** ** The handler *)

(** The body of the [try]: nothing is upserted unless the discovery
    returned, and then only row sets that are not empty. *)
Lemma refresh_run fuel youtubeApiKey supabase w :
  match fetchYouTubeChannels fuel youtubeApiKey w with
  | (Returned channels, t1, w1) =>
      ∃ o t2 w2,
        refresh fuel youtubeApiKey supabase w = (o, t1 ++ t2, w2) ∧
        Forall (λ e, isUpsert e = true ∧ isEmptyUpsert e = false) t2 ∧
        (channels = [] →
         o = Returned (json completedBody 200) ∧ t2 = [] ∧ w2 = w1)
  | (Thrown message, t1, w1) =>
      refresh fuel youtubeApiKey supabase w = (Thrown message, t1, w1)
  | (OutOfFuel, t1, w1) =>
      refresh fuel youtubeApiKey supabase w = (OutOfFuel, t1, w1)
  end.
Proof.
  destruct (fetchYouTubeChannels fuel youtubeApiKey w)
    as [[[channels|message|] t1] w1] eqn:Hfetch;
    unfold ChannelDiscovery.refresh; unfold bind at 1; rewrite Hfetch; [|done..].
  destruct channels as [|c channels].
  { simpl. eexists _, _, _. split; [reflexivity|]. by repeat split. }
  unfold bind, upsertM, ret, throw. simpl.
  destruct (upsert w1 supabase "channels" _ "id") as [[message|] w2];
    [eexists _, _, _; split; [reflexivity|]; split; [by repeat constructor|done]|].
  simpl.
  destruct (upsert w2 supabase "channel_stats" _ "channel_id") as [[message|] w3];
    eexists _, _, _; (split; [reflexivity|]); split; by repeat constructor.
Qed.

(** [GET] either answers at once, with no outbound call, or runs the [try]. *)
Lemma GET_run fuel request env w :
  (∃ response, GET fuel request env w = (Returned response, [], w)) ∨
  (∃ youtubeApiKey supabase,
      GET fuel request env w
      = catch (refresh fuel youtubeApiKey supabase)
              (fun message => ret (json (errorBody message) 500)) w).
Proof.
  unfold ChannelDiscovery.GET.
  destruct (validateBounds request) as [response|[lower upper]]; [by left; eexists|].
  unfold ChannelDiscovery.afterValidation.
  destruct (YOUTUBE_API_KEY env) as [youtubeApiKey|]; [|by left; eexists].
  destruct (negb (truthyStr (Some youtubeApiKey))); [by left; eexists|].
  destruct (getSupabaseClient env) as [supabase|]; [|by left; eexists].
  right. by eexists _, _.
Qed.

(** What [GET] gives when the discovery throws: a 500 with the message, and
    no upsert. *)
Lemma GET_surfaced fuel request env w e message :
  e ∈ (GET fuel request env w).1.2 →
  surfacedError e = Some message →
  (GET fuel request env w).1.1 = Returned (json (errorBody message) 500) ∧
  Forall (λ e, isUpsert e = false) (GET fuel request env w).1.2.
Proof.
  destruct (GET_run fuel request env w)
    as [[response ->]|(youtubeApiKey & supabase & ->)]; simpl.
  { intros Hin. by apply elem_of_nil in Hin. }
  unfold catch.
  pose proof (refresh_run fuel youtubeApiKey supabase w) as Hrefresh.
  rewrite fetchYouTubeChannels_run in Hrefresh.
  pose proof (loop_run youtubeApiKey fuel initialState w) as Hrun.
  destruct (loop fuel youtubeApiKey initialState w) as [[o1 t1] w1].
  pose proof (loop_surfaced _ _ _ _ _ _ Hrun e message) as Hthrown.
  pose proof (loop_no_upsert _ _ _ _ _ _ Hrun) as Hnone.
  destruct o1 as [st|message1|].
  - destruct Hrefresh as (o & t2 & w2 & -> & Hups & _).
    assert (Hin' : e ∈ t1 ++ t2 → surfacedError e = Some message → False).
    { intros Hin Herr. apply elem_of_app in Hin as [Hin|Hin].
      - specialize (Hthrown Hin Herr). discriminate Hthrown.
      - rewrite Forall_forall in Hups. apply Hups in Hin as [Hup _].
        destruct e; simpl in *; congruence. }
    destruct o as [response|message2|]; simpl; rewrite ?app_nil_r;
      intros Hin Herr; by destruct (Hin' Hin Herr).
  - rewrite Hrefresh. simpl. rewrite app_nil_r. intros Hin Herr.
    specialize (Hthrown Hin Herr). by injection Hthrown as <-.
  - rewrite Hrefresh. simpl. intros Hin Herr.
    specialize (Hthrown Hin Herr). discriminate Hthrown.
Qed.

(** C6: when a search request or a channels request of a run of [GET] got a
    response that is not a success, the run made no upsert and answers with a
    500 whose error names the endpoint, the status code and the body of that
    response; for a search response with status 403 the error starts with
    "YouTube search API error: 403". *)
Theorem upstream_failure_aborts :
  ∀ (fuel : nat) (request : Query) (env : Env) (w : World),
    let run := GET fuel request env w in
    (∀ url res,
        SearchCall url (inr res) ∈ run.1.2 → ok res = false →
        run.1.1 = Returned (json (errorBody ("YouTube search API error: "
                                               +:+ pretty (status res)
                                               +:+ " " +:+ text res)) 500) ∧
        Forall (λ e, isUpsert e = false) run.1.2) ∧
    (∀ url res,
        ChannelsCall url (inr res) ∈ run.1.2 → ok res = false →
        run.1.1 = Returned (json (errorBody ("YouTube channels API error: "
                                               +:+ pretty (status res)
                                               +:+ " " +:+ text res)) 500) ∧
        Forall (λ e, isUpsert e = false) run.1.2) ∧
    (∀ url res,
        SearchCall url (inr res) ∈ run.1.2 → status res = 403 →
        ∃ message,
          run.1.1 = Returned (json (errorBody message) 500) ∧
          String.prefix "YouTube search API error: 403" message = true).
Proof.
  intros fuel request env w run. subst run. split; [|split].
  - intros url res Hin Hok. eapply GET_surfaced; [exact Hin|].
    simpl. by rewrite Hok.
  - intros url res Hin Hok. eapply GET_surfaced; [exact Hin|].
    simpl. by rewrite Hok.
  - intros url res Hin Hstatus.
    assert (Hok : ok res = false) by (unfold ok; by rewrite Hstatus).
    eexists. split.
    + eapply GET_surfaced; [exact Hin|]. simpl. by rewrite Hok.
    + rewrite Hstatus. reflexivity.
Qed.

(** The discovery route never upserts an empty row set, and with no channel
    discovered it makes no upsert at all and answers that the batch is
    completed. *)
Lemma discovery_skips_empty_upserts (fuel : nat) (request : Query) (env : Env) (w : World) :
  Forall (λ e, isEmptyUpsert e = false) (GET fuel request env w).1.2 ∧
  (∀ youtubeApiKey supabase t w',
      fetchYouTubeChannels fuel youtubeApiKey w = (Returned [], t, w') →
      refresh fuel youtubeApiKey supabase w = (Returned (json completedBody 200), t, w') ∧
      Forall (λ e, isUpsert e = false) t).
Proof.
  split.
  - destruct (GET_run fuel request env w)
      as [[response ->]|(youtubeApiKey & supabase & ->)]; simpl; [constructor|].
    unfold catch.
    pose proof (refresh_run fuel youtubeApiKey supabase w) as Hrefresh.
    rewrite fetchYouTubeChannels_run in Hrefresh.
    pose proof (loop_run youtubeApiKey fuel initialState w) as Hrun.
    destruct (loop fuel youtubeApiKey initialState w) as [[o1 t1] w1].
    assert (Hnone : Forall (λ e, isEmptyUpsert e = false) t1).
    { eapply Forall_impl; [by eapply loop_no_upsert|].
      intros e He. by destruct e. }
    destruct o1 as [st|message1|].
    + destruct Hrefresh as (o & t2 & w2 & -> & Hups & _).
      assert (Hall : Forall (λ e, isEmptyUpsert e = false) (t1 ++ t2)).
      { apply Forall_app. split; [done|].
        eapply Forall_impl; [exact Hups|]. by intros e [_ He]. }
      destruct o as [response|message2|]; simpl; [done| |done].
      by rewrite app_nil_r.
    + rewrite Hrefresh. simpl. by rewrite app_nil_r.
    + by rewrite Hrefresh.
  - intros youtubeApiKey supabase t w' Hfetch.
    pose proof (refresh_run fuel youtubeApiKey supabase w) as Hrefresh.
    rewrite Hfetch in Hrefresh.
    destruct Hrefresh as (o & t2 & w2 & -> & _ & Hempty).
    destruct (Hempty eq_refl) as (-> & -> & ->). rewrite app_nil_r.
    split; [done|].
    rewrite fetchYouTubeChannels_run in Hfetch.
    pose proof (loop_run youtubeApiKey fuel initialState w) as Hrun.
    destruct (loop fuel youtubeApiKey initialState w) as [[[st|message|] t1] w1];
      [|discriminate Hfetch..].
    injection Hfetch as _ <- _. by eapply loop_no_upsert.
Qed.

End DiscoveryProperties.

(** * The video sync route on an empty page *)

Section VideoSyncProperties.

Variable World : Type.
Variable fetch : World -> string -> Fetched VideoSync.VideoData * World.
Variable upsert :
  World -> VideoSync.SupabaseClient -> string -> list VideoSync.VideoRow -> string
  -> option string * World.

(** C1, where the code departs from the claim: when the upstream API answers
    the video sync route with a success and zero items, the route does call
    the store: its second outbound call is an upsert into "videos" of the
    empty row set, and it answers [{ inserted: 0 }] once the store has
    accepted that upsert. *)
Theorem video_sync_upserts_empty_rows :
  ∀ (env : VideoSync.Env) (w w1 w2 : World)
    (youtubeRes : HttpResponse VideoSync.VideoData)
    (supabase : VideoSync.SupabaseClient) (error : option string),
    fetch w (VideoSync.requestUrl env) = (inr youtubeRes, w1) →
    ok youtubeRes = true →
    body_json youtubeRes = inr {| VideoSync.items := Some [] |} →
    VideoSync.createClient (VideoSync.SUPABASE_URL env)
                           (VideoSync.SUPABASE_SERVICE_ROLE_KEY env)
    = inr supabase →
    upsert w1 supabase "videos" [] "video_id" = (error, w2) →
    (∃ t,
        (VideoSync.GET World fetch upsert env w).1.2
        = VideoSync.FetchCall (VideoSync.requestUrl env) (inr youtubeRes)
            :: VideoSync.UpsertCall supabase "videos" [] "video_id" error :: t) ∧
    (error = None →
     VideoSync.GET World fetch upsert env w
     = (Returned (json (JObject [("inserted", numOfNat 0)]) 200),
        [VideoSync.FetchCall (VideoSync.requestUrl env) (inr youtubeRes);
         VideoSync.UpsertCall supabase "videos" [] "video_id" None],
        w2)).
Proof.
  intros env w w1 w2 youtubeRes supabase error Hfetch Hok Hjson Hclient Hupsert.
  unfold VideoSync.GET, VideoSync.sync, catch, bind, VideoSync.fetchM,
    VideoSync.upsertM, VideoSync.orThrow.
  rewrite Hfetch, Hok. simpl. rewrite Hjson. simpl. rewrite Hclient. simpl.
  rewrite Hupsert. destruct error as [message|]; simpl.
  - split; [by eexists|]. intros Herror. discriminate Herror.
  - split; [by eexists|]. intros _. reflexivity.
Qed.

End VideoSyncProperties.

(** * The properties on the example worlds *)

Lemma video_sync_upserts_empty_rows_witness :
  Examples.videoFetch Examples.noVideos (VideoSync.requestUrl Examples.videoEnv)
  = (Examples.noVideos, Examples.noVideos) ∧
  VideoSync.GET _ Examples.videoFetch Examples.videoUpsert Examples.videoEnv
                Examples.noVideos
  = (Returned (json (JObject [("inserted", numOfNat 0)]) 200),
     [VideoSync.FetchCall (VideoSync.requestUrl Examples.videoEnv) Examples.noVideos;
      VideoSync.UpsertCall
        {| VideoSync.supabaseUrl := "https://db.example";
           VideoSync.supabaseKey := "service" |}
        "videos" [] "video_id" None],
     Examples.noVideos).
Proof.
  split; [reflexivity|].
  exact (proj2 (video_sync_upserts_empty_rows _ Examples.videoFetch Examples.videoUpsert
                  Examples.videoEnv Examples.noVideos Examples.noVideos Examples.noVideos
                  {| status := 200; text := "{items:[]}";
                     body_json := inr {| VideoSync.items := Some [] |} |}
                  {| VideoSync.supabaseUrl := "https://db.example";
                     VideoSync.supabaseKey := "service" |}
                  None eq_refl eq_refl eq_refl eq_refl eq_refl)
               eq_refl).
Defined.

Lemma bounds_never_filter_witness :
  ChannelDiscovery.validateBounds Examples.trim Examples.StringToNumber
    Examples.ObjectToNumber Examples.noBounds = inr (0%Z, 10000%Z) ∧
  ChannelDiscovery.validateBounds Examples.trim Examples.StringToNumber
    Examples.ObjectToNumber Examples.wideBounds = inr (500%Z, 10000%Z) ∧
  Examples.GET 10 Examples.noBounds Examples.env Examples.pagedWorld
  = Examples.GET 10 Examples.wideBounds Examples.env Examples.pagedWorld.
Proof.
  assert (H1 : ChannelDiscovery.validateBounds Examples.trim Examples.StringToNumber
                 Examples.ObjectToNumber Examples.noBounds = inr (0%Z, 10000%Z))
    by (vm_compute; reflexivity).
  assert (H2 : ChannelDiscovery.validateBounds Examples.trim Examples.StringToNumber
                 Examples.ObjectToNumber Examples.wideBounds = inr (500%Z, 10000%Z))
    by (vm_compute; reflexivity).
  split; [exact H1 | split; [exact H2 |]].
  exact (bounds_never_filter _ _ _ _ _ _ _ _ _ _ _ 10 Examples.env
           Examples.pagedWorld H1 H2).
Defined.

Lemma discovery_within_cap_and_chunk_witness :
  (Examples.discover 10 "key" Examples.pagedWorld).1.1 = Returned Examples.pagedChannels ∧
  length Examples.pagedChannels ≤ 100.
Proof.
  assert (H : (Examples.discover 10 "key" Examples.pagedWorld).1.1
              = Returned Examples.pagedChannels) by (vm_compute; reflexivity).
  split; [exact H|].
  exact (proj1 (proj2 (discovery_within_cap_and_chunk _ _ _ _ _ 10 "key"
                         Examples.pagedWorld)) _ H).
Defined.

Lemma discovery_ids_distinct_witness :
  (Examples.discover 10 "key" Examples.pagedWorld).1.1 = Returned Examples.pagedChannels ∧
  id <$> Examples.pagedChannels = ["a"; "c"; "d"] ∧
  NoDup (id <$> Examples.pagedChannels).
Proof.
  assert (H : (Examples.discover 10 "key" Examples.pagedWorld).1.1
              = Returned Examples.pagedChannels) by (vm_compute; reflexivity).
  split; [exact H | split; [reflexivity |]].
  exact (discovery_ids_distinct _ _ _ _ _ 10 "key" Examples.pagedWorld _ H).
Defined.

Lemma no_token_one_page_witness :
  (Examples.discover 1 "key" Examples.lastPageWorld).1.1 ≠ OutOfFuel ∧
  length (List.filter isSearch (Examples.discover 1 "key" Examples.lastPageWorld).1.2) = 1.
Proof.
  apply (no_token_one_page Examples.StringToNumber Examples.ObjectToNumber _
           Examples.fetchSearch Examples.fetchChannels 0 "key" Examples.lastPageWorld).
  intros url searchRes w1 searchData Hfetch Hjson.
  injection Hfetch as <- _. by injection Hjson as <-.
Defined.

Lemma upstream_failure_aborts_witness :
  (Examples.GET 10 Examples.noBounds Examples.env Examples.forbiddenWorld).1.1
  = Returned (json (errorBody "YouTube search API error: 403 quota") 500) ∧
  Forall (λ e, isUpsert e = false)
         (Examples.GET 10 Examples.noBounds Examples.env Examples.forbiddenWorld).1.2.
Proof.
  apply (proj1 (upstream_failure_aborts Examples.trim Examples.StringToNumber
                  Examples.ObjectToNumber _ Examples.fetchSearch Examples.fetchChannels
                  Examples.upsert 10 Examples.noBounds Examples.env
                  Examples.forbiddenWorld)
               (searchUrlOf "key" 100 None) Examples.forbidden).
  - vm_compute. left.
  - reflexivity.
Defined.

Lemma bound_validation_is_asymmetric_witness :
  Examples.GET 10 Examples.highMinimum Examples.env Examples.pagedWorld
  = (Returned (json (errorBody "minSubscribers must be less than or equal to 10000") 400),
     [], Examples.pagedWorld) ∧
  ChannelDiscovery.validateBounds Examples.trim Examples.StringToNumber
    Examples.ObjectToNumber Examples.wideBounds = inr (500%Z, 10000%Z).
Proof.
  split.
  - apply (proj1 (bound_validation_is_asymmetric Examples.trim Examples.StringToNumber
                    Examples.ObjectToNumber _ Examples.fetchSearch Examples.fetchChannels
                    Examples.upsert Examples.highMinimum Examples.env 10
                    Examples.pagedWorld 20000%Z 10000%Z eq_refl eq_refl)).
    reflexivity.
  - apply (proj2 (bound_validation_is_asymmetric Examples.trim Examples.StringToNumber
                    Examples.ObjectToNumber _ Examples.fetchSearch Examples.fetchChannels
                    Examples.upsert Examples.wideBounds Examples.env 10
                    Examples.pagedWorld 500%Z 50000%Z eq_refl eq_refl));
      [discriminate | reflexivity].
Defined.

Lemma empty_page_advances_witness :
  Examples.runLoop 2 "key" initialState Examples.emptyPageWorld
  = (match Examples.runLoop 1 "key"
             {| collected := []; seen := ∅; pageToken := Some "T1" |}
             Examples.afterEmptyPage with
     | (o, t, w') =>
         (o, SearchCall (searchUrlOf "key" 100 None) (inr Examples.emptyPage) :: t, w')
     end) ∧
  params_get "pageToken" (searchParams (searchUrlOf "key" 100 (Some "T1"))) = Some "T1".
Proof.
  destruct (empty_page_advances Examples.StringToNumber Examples.ObjectToNumber _
              Examples.fetchSearch Examples.fetchChannels 1 "key" initialState
              Examples.emptyPageWorld Examples.afterEmptyPage Examples.emptyPage
              {| search_items := Some []; nextPageToken := Some "T1" |} ∅
              ltac:(unfold MAX_RESULTS; simpl; lia) eq_refl eq_refl eq_refl eq_refl)
    as [Hadvance _].
  destruct (Hadvance eq_refl) as (Hloop & _ & Htoken).
  split; [exact Hloop | exact Htoken].
Defined.

Lemma merge_follows_discovery_order_witness :
  id <$> mergeDetails
           (buildDetailMap Examples.StringToNumber Examples.ObjectToNumber
              [Some Examples.hiddenItem;
               Some {| item_id := Some "a"; snippet := None; statistics := None;
                       item_etag := None |}])
           ["a"; "b"; "c"] []
  = ["a"; "c"].
Proof.
  pose proof (merge_follows_discovery_order Examples.StringToNumber
                Examples.ObjectToNumber
                [Some Examples.hiddenItem;
                 Some {| item_id := Some "a"; snippet := None; statistics := None;
                         item_etag := None |}]
                ["a"; "b"; "c"] []) as (_ & Hids & _).
  refine (eq_trans Hids _). vm_compute. reflexivity.
Defined.

Lemma hidden_subscriber_count_is_dropped_witness :
  stat_subscriberCount (Examples.stats (JBool true) "12" "7" "3") = JString "12" ∧
  subscriberCount (channelOf Examples.StringToNumber Examples.ObjectToNumber "c"
                             Examples.hiddenItem) = None ∧
  viewCount (channelOf Examples.StringToNumber Examples.ObjectToNumber "c"
                       Examples.hiddenItem) = Some (Finite (inject_Z 7)).
Proof.
  destruct (hidden_subscriber_count_is_dropped Examples.StringToNumber
              Examples.ObjectToNumber "c" Examples.hiddenItem
              (Examples.stats (JBool true) "12" "7" "3") ∅
              eq_refl eq_refl eq_refl eq_refl)
    as (_ & Hsubscribers & _ & Hviews & _).
  split; [reflexivity | split; [exact Hsubscribers|]].
  rewrite Hviews. reflexivity.
Defined.

(** * Further properties: the bounds and the configuration *)

(** The bound [parseBound] returns is the fallback, for a missing or blank
    value, or the floor of a finite number that is not negative. *)
Lemma parseBound_inr trim StringToNumber ObjectToNumber value fallback n :
  parseBound trim StringToNumber ObjectToNumber value fallback = inr n →
  n = fallback ∨
  ∃ v q, value = Some v ∧ StringToNumber v = Finite q ∧
         Qle_bool 0 q = true ∧ n = Qfloor q ∧ (0 ≤ n)%Z.
Proof.
  unfold parseBound. destruct value as [v|]; [|intros [= <-]; by left].
  destruct (String.eqb (trim v) EmptyString); [intros [= <-]; by left|].
  simpl. destruct (StringToNumber v) as [|negative|q] eqn:Hnum; simpl; try done.
  destruct (Qle_bool 0 q) eqn:Hq; simpl; [|done].
  intros [= <-]. right. exists v, q. repeat split; try done.
  apply Qle_bool_iff in Hq. apply Qfloor_resp_le in Hq. exact Hq.
Qed.

Lemma parseBound_inl trim StringToNumber ObjectToNumber value fallback message :
  parseBound trim StringToNumber ObjectToNumber value fallback = inl message →
  message = "Invalid numeric parameter".
Proof.
  unfold parseBound. destruct value as [v|]; [|done].
  destruct (String.eqb (trim v) EmptyString); [done|].
  by destruct (negb _ || _); intros [= <-].
Qed.

Lemma parseBound_blank trim StringToNumber ObjectToNumber value fallback :
  String.eqb (trim value) EmptyString = true →
  parseBound trim StringToNumber ObjectToNumber (Some value) fallback
  = parseBound trim StringToNumber ObjectToNumber None fallback.
Proof. intros Hblank. unfold parseBound. by rewrite Hblank. Qed.

Section ValidationProperties.

Variable trim : string -> string.
Variable StringToNumber : string -> jsnum.
Variable ObjectToNumber : JsVal -> jsnum.
Variable World : Type.
Variable fetchSearch : World -> Url -> Fetched SearchData * World.
Variable fetchChannels : World -> Url -> Fetched ChannelsData * World.
Variable upsert :
  World -> SupabaseClient -> string -> Rows -> string -> option string * World.

Local Abbreviation parseBound := (parseBound trim StringToNumber ObjectToNumber).
Local Abbreviation validateBounds := (validateBounds trim StringToNumber ObjectToNumber).
Local Abbreviation GET :=
  (GET trim StringToNumber ObjectToNumber World fetchSearch fetchChannels upsert).

(** X1: a bound that [parseBound] returns is never negative when its fallback
    is not: it is the fallback itself, or the floor of the finite,
    non-negative number the parameter denotes; and the only error
    [parseBound] throws is "Invalid numeric parameter". *)
Theorem parseBound_never_negative :
  ∀ (value : option string) (fallback : Z),
    (0 ≤ fallback)%Z →
    (∀ n, parseBound value fallback = inr n →
          (0 ≤ n)%Z ∧
          (n = fallback ∨
           ∃ v q, value = Some v ∧ StringToNumber v = Finite q ∧ n = Qfloor q)) ∧
    (∀ message, parseBound value fallback = inl message →
                message = "Invalid numeric parameter").
Proof.
  intros value fallback Hfallback. split.
  - intros n Hn. apply parseBound_inr in Hn as [->|(v & q & -> & Hq & _ & -> & Hpos)].
    + split; [done | by left].
    + split; [done | right; by exists v, q].
  - apply parseBound_inl.
Qed.

(** What the validation answers when it rejects. *)
Lemma validateBounds_inl request response :
  validateBounds request = inl response →
  ∃ message,
    response = json (errorBody message) 400 ∧
    (message = "Invalid numeric parameter" ∨
     message = "minSubscribers must be less than or equal to 10000" ∨
     message = "minSubscribers must be less than or equal to maxSubscribers").
Proof.
  unfold ChannelDiscovery.validateBounds.
  destruct (parseBound (get_minSubscribers request) 0%Z) as [m1|lower] eqn:Hmin.
  { intros [= <-]. apply parseBound_inl in Hmin as ->. eauto. }
  destruct (parseBound (get_maxSubscribers request) MAX_ALLOWED_SUBSCRIBERS)
    as [m2|upper] eqn:Hmax.
  { intros [= <-]. apply parseBound_inl in Hmax as ->. eauto. }
  destruct (MAX_ALLOWED_SUBSCRIBERS <? lower)%Z.
  { intros [= <-]. eexists. split; [reflexivity|]. right. by left. }
  destruct (_ <? lower)%Z; [|done].
  intros [= <-]. eexists. split; [reflexivity|]. right. by right.
Qed.

(** X2: the bounds the validation lets through are ordered and within the
    range: 0 <= minSubscribers <= maxSubscribers <= 10000. *)
Theorem validated_bounds_are_ordered :
  ∀ (request : Query) (minSubscribers maxSubscribers : Z),
    validateBounds request = inr (minSubscribers, maxSubscribers) →
    (0 ≤ minSubscribers)%Z ∧ (minSubscribers ≤ maxSubscribers)%Z ∧
    (maxSubscribers ≤ 10000)%Z.
Proof.
  intros request lo hi. unfold ChannelDiscovery.validateBounds.
  destruct (parseBound (get_minSubscribers request) 0%Z) as [m1|lower] eqn:Hmin;
    [done|].
  destruct (parseBound (get_maxSubscribers request) MAX_ALLOWED_SUBSCRIBERS)
    as [m2|upper] eqn:Hmax; [done|].
  unfold MAX_ALLOWED_SUBSCRIBERS in *.
  destruct (10000 <? lower)%Z eqn:H1; [done|].
  apply Z.ltb_ge in H1.
  assert (Hlower : (0 ≤ lower)%Z).
  { apply parseBound_inr in Hmin as [->|(_ & _ & _ & _ & _ & _ & Hpos)]; [lia|done]. }
  destruct (10000 <? upper)%Z eqn:H2.
  - destruct (10000 <? lower)%Z; [done|]. intros [= <- <-]. lia.
  - apply Z.ltb_ge in H2. destruct (upper <? lower)%Z eqn:H3; [done|].
    apply Z.ltb_ge in H3. intros [= <- <-]. lia.
Qed.

(** X3: a request the validation rejects is answered with a 400 and one of the
    three validation messages, before anything else is looked at: whatever the
    configuration, no outbound call is made and the world is left as it was. *)
Theorem rejected_request_reaches_nothing :
  ∀ (fuel : nat) (request : Query) (env : Env) (w : World) (response : NextResponse),
    validateBounds request = inl response →
    GET fuel request env w = (Returned response, [], w) ∧
    res_status response = 400 ∧
    ∃ message,
      res_body response = errorBody message ∧
      (message = "Invalid numeric parameter" ∨
       message = "minSubscribers must be less than or equal to 10000" ∨
       message = "minSubscribers must be less than or equal to maxSubscribers").
Proof.
  intros fuel request env w response Hreject.
  split; [unfold ChannelDiscovery.GET; by rewrite Hreject|].
  apply validateBounds_inl in Hreject as (message & -> & Hmessage).
  split; [done|]. by exists message.
Qed.

(** X4: with both parameters parsed and the lower one at most 10000, a lower
    bound above the upper bound (the upper bound taken after its clamping to
    10000) is answered with a 400 that says so, and no outbound call. *)
Theorem inverted_bounds_are_rejected :
  ∀ (fuel : nat) (request : Query) (env : Env) (w : World) (lower upper : Z),
    parseBound (get_minSubscribers request) 0%Z = inr lower →
    parseBound (get_maxSubscribers request) MAX_ALLOWED_SUBSCRIBERS = inr upper →
    (lower ≤ 10000)%Z →
    (upper `min` 10000 < lower)%Z →
    GET fuel request env w
    = (Returned
         (json (errorBody "minSubscribers must be less than or equal to maxSubscribers")
               400),
       [], w).
Proof.
  intros fuel request env w lower upper Hmin Hmax Hle Hlt.
  unfold ChannelDiscovery.GET, ChannelDiscovery.validateBounds.
  rewrite Hmin, Hmax. unfold MAX_ALLOWED_SUBSCRIBERS.
  assert (H1 : (10000 <? lower)%Z = false) by (apply Z.ltb_ge; lia).
  rewrite H1.
  destruct (10000 <? upper)%Z eqn:H2.
  - apply Z.ltb_lt in H2. rewrite Z.min_r in Hlt by lia. lia.
  - apply Z.ltb_ge in H2. rewrite Z.min_l in Hlt by lia.
    apply Z.ltb_lt in Hlt. by rewrite Hlt.
Qed.

(** X5: a parameter that is present but blank counts as a missing one: the
    handler behaves on it as on the request without that parameter. *)
Theorem blank_parameter_is_missing :
  ∀ (fuel : nat) (env : Env) (w : World) (blank : string) (other : option string),
    String.eqb (trim blank) EmptyString = true →
    GET fuel {| get_minSubscribers := Some blank; get_maxSubscribers := other |} env w
    = GET fuel {| get_minSubscribers := None; get_maxSubscribers := other |} env w ∧
    GET fuel {| get_minSubscribers := other; get_maxSubscribers := Some blank |} env w
    = GET fuel {| get_minSubscribers := other; get_maxSubscribers := None |} env w.
Proof.
  intros fuel env w blank other Hblank.
  unfold ChannelDiscovery.GET, ChannelDiscovery.validateBounds.
  cbn [get_minSubscribers get_maxSubscribers].
  by rewrite !(parseBound_blank _ _ _ _ _ Hblank).
Qed.

(** X6: once the bounds are validated, a missing or empty [YOUTUBE_API_KEY],
    or store credentials that give no client, are answered with a 500 that
    names what is not configured, and the upstream API is not called. *)
Theorem missing_configuration_reaches_nothing :
  ∀ (fuel : nat) (request : Query) (env : Env) (w : World) (bounds : Z * Z),
    validateBounds request = inr bounds →
    (truthyStr (YOUTUBE_API_KEY env) = false →
     GET fuel request env w
     = (Returned (json (errorBody "Server is not configured with YOUTUBE_API_KEY") 500),
        [], w)) ∧
    (truthyStr (YOUTUBE_API_KEY env) = true →
     getSupabaseClient env = None →
     GET fuel request env w
     = (Returned
          (json (errorBody "Server is not configured with Supabase credentials") 500),
        [], w)).
Proof.
  intros fuel request env w [lower upper] Hvalid.
  unfold ChannelDiscovery.GET, ChannelDiscovery.afterValidation. rewrite Hvalid.
  split.
  - intros Hkey. destruct (YOUTUBE_API_KEY env); [|done]. by rewrite Hkey.
  - intros Hkey Hclient. destruct (YOUTUBE_API_KEY env); [|done].
    by rewrite Hkey, Hclient.
Qed.

End ValidationProperties.


(** * Further properties: the pages and the detail records *)

(** The candidate ids of a page, in full: they are taken from the channel ids
    of the items in the order of the page, they are non-empty strings, and
    when the batch stays below the quota no item was left unread. *)
Lemma collectCandidates_page items remaining :
  ∀ candidateIds seen candidateIds' seen',
    collectCandidates items remaining candidateIds seen = (candidateIds', seen') →
    ∃ new,
      candidateIds' = candidateIds ++ new ∧
      sublist new (omap channelIdOf items) ∧
      Forall (λ i, i ≠ EmptyString) new ∧
      (length candidateIds' < remaining →
       ∀ i, i ∈ omap channelIdOf items → i ≠ EmptyString → i ∈ seen ∨ i ∈ new).
Proof.
  induction items as [|item rest IH]; intros cands seen cands' seen' H; simpl in H.
  - injection H as <- <-. exists []. rewrite app_nil_r.
    repeat split; [constructor | constructor |].
    intros _ i Hi. by apply elem_of_nil in Hi.
  - simpl. destruct (channelIdOf item) as [i|] eqn:Hid; simpl; [|by eapply IH].
    unfold truthyStr in H.
    destruct (negb (String.eqb i EmptyString)) eqn:Htruthy; simpl in H.
    2: { apply IH in H as (new & -> & Hsub & Hne & Hall). exists new.
         repeat split; [by apply sublist_cons | done |].
         intros Hlen j Hj Hj'. apply elem_of_cons in Hj as [->|Hj]; [|by apply Hall].
         apply negb_false_iff, String.eqb_eq in Htruthy. done. }
    destruct (bool_decide (i ∈ seen)) eqn:Hseen.
    { apply bool_decide_eq_true in Hseen.
      apply IH in H as (new & -> & Hsub & Hne & Hall). exists new.
      repeat split; [by apply sublist_cons | done |].
      intros Hlen j Hj Hj'. apply elem_of_cons in Hj as [->|Hj]; [by left|].
      by apply Hall. }
    assert (Hi : i ≠ EmptyString).
    { intros ->. by rewrite String.eqb_refl in Htruthy. }
    destruct (remaining <=? length (cands ++ [i])) eqn:Hfull.
    + injection H as <- <-. exists [i].
      repeat split.
      * apply sublist_skip, sublist_nil_l.
      * by constructor.
      * apply Nat.leb_le in Hfull. lia.
    + apply IH in H as (new & -> & Hsub & Hne & Hall).
      exists (i :: new). rewrite <- app_assoc. simpl.
      repeat split.
      * by apply sublist_skip.
      * by constructor.
      * rewrite <- app_assoc in Hall. simpl in Hall.
        intros Hlen j Hj Hj'. apply elem_of_cons in Hj as [->|Hj].
        -- right. by left.
        -- destruct (Hall Hlen j Hj Hj') as [Hin|Hin].
           ++ apply elem_of_union in Hin as [Hin|Hin].
              ** apply elem_of_singleton in Hin as ->. right. by left.
              ** by left.
           ++ right. by right.
Qed.

(** X8: the candidate ids of a search page are channel ids of its items in
    the order of the page, pairwise distinct, non-empty and not seen before;
    they are added to the set of seen ids; they number at most the remaining
    quota; and when they stay below the quota, every non-empty channel id of
    the page is either among them or was seen before. *)
Theorem candidates_of_a_page :
  ∀ (items : list (option SearchItem)) (remaining : nat) (seen seen' : gset string)
    (candidateIds : list string),
    collectCandidates items remaining [] seen = (candidateIds, seen') →
    sublist candidateIds (omap channelIdOf items) ∧
    NoDup candidateIds ∧
    (∀ i, i ∈ candidateIds → i ≠ EmptyString ∧ i ∉ seen) ∧
    seen' = list_to_set candidateIds ∪ seen ∧
    (0 < remaining → length candidateIds ≤ remaining) ∧
    (length candidateIds < remaining →
     ∀ i, i ∈ omap channelIdOf items → i ≠ EmptyString → i ∈ seen ∨ i ∈ candidateIds).
Proof.
  intros items remaining seen seen' cands H.
  pose proof (collectCandidates_spec _ _ _ _ _ _ H)
    as (new & Hnew & Hseen & Hnd & Hfresh & Hquota).
  pose proof (collectCandidates_page _ _ _ _ _ _ H)
    as (new' & Hnew' & Hsub & Hne & Hall).
  simpl in Hnew, Hnew'. subst new new'.
  repeat split; try done.
  - rewrite Forall_forall in Hne. by apply Hne.
  - by apply Hfresh.
Qed.

Lemma searchUrl_pageToken_get apiKey remaining token :
  params_get "pageToken" (searchParams (searchUrlOf apiKey remaining token))
  = (if truthyStr token then token else None).
Proof.
  unfold searchUrlOf. destruct token as [t|]; [|reflexivity].
  destruct (truthyStr (Some t)); reflexivity.
Qed.

Lemma tokensChained_no_search token t :
  List.filter isSearch t = [] → tokensChained token t.
Proof.
  induction t as [|e t IH]; [done|]. destruct e; simpl; [done|auto..].
Qed.

Section PaginationProperties.

Variable StringToNumber : string -> jsnum.
Variable ObjectToNumber : JsVal -> jsnum.
Variable World : Type.
Variable fetchSearch : World -> Url -> Fetched SearchData * World.
Variable fetchChannels : World -> Url -> Fetched ChannelsData * World.

Local Abbreviation channelOf := (channelOf StringToNumber ObjectToNumber).
Local Abbreviation buildDetailMap := (buildDetailMap StringToNumber ObjectToNumber).
Local Abbreviation detailStep := (detailStep StringToNumber ObjectToNumber).
Local Abbreviation iteration :=
  (iteration StringToNumber ObjectToNumber World fetchSearch fetchChannels).
Local Abbreviation IterationRun :=
  (IterationRun StringToNumber ObjectToNumber World fetchSearch fetchChannels).
Local Abbreviation LoopRun :=
  (LoopRun StringToNumber ObjectToNumber World fetchSearch fetchChannels).
Local Abbreviation loop :=
  (loop StringToNumber ObjectToNumber World fetchSearch fetchChannels).
Local Abbreviation fetchYouTubeChannels :=
  (fetchYouTubeChannels StringToNumber ObjectToNumber World fetchSearch fetchChannels).

(** A turn that ends normally: how it got there and the state it leaves. *)
Lemma iteration_returned apiKey st w c t w' :
  IterationRun apiKey st w (Returned c) t w' →
  ∃ searchRes searchData candidateIds seen' st',
    body_json searchRes = inr searchData ∧
    collectCandidates (nullish (search_items searchData) [])
                      (MAX_RESULTS - length (collected st)) [] (seen st)
    = (candidateIds, seen') ∧
    c = (if truthyStr (nextPageToken searchData) then Continue st' else Break st') ∧
    seen st' = seen' ∧
    pageToken st' = nextPageToken searchData ∧
    ((collected st' = collected st ∧
      t = [SearchCall (searchUrlOf apiKey (MAX_RESULTS - length (collected st))
                                   (pageToken st)) (inr searchRes)]) ∨
     (∃ detailRes detailData,
         collected st'
         = mergeDetails (buildDetailMap (nullish (channel_items detailData) []))
                        candidateIds (collected st) ∧
         t = [SearchCall (searchUrlOf apiKey (MAX_RESULTS - length (collected st))
                                      (pageToken st)) (inr searchRes);
              ChannelsCall (detailUrlOf apiKey candidateIds) (inr detailRes)])).
Proof.
  intros Hrun. remember (Returned c) as o eqn:Ho.
  destruct Hrun as [| | |searchRes searchData seen' w1 remaining searchUrl _ _ Hjson Hcands stN
                   |searchRes searchData candidateIds seen' w1 detail w2 remaining
                      searchUrl _ _ Hjson Hcands _ detailUrl _ stOf];
    try discriminate Ho.
  - injection Ho as <-.
    exists searchRes, searchData, [], seen', stN. repeat split; try done. by left.
  - destruct detail as [message|detailRes]; [discriminate Ho|].
    destruct (ok detailRes); [|discriminate Ho].
    destruct (body_json detailRes) as [message|detailData]; [discriminate Ho|].
    injection Ho as <-.
    exists searchRes, searchData, candidateIds, seen', (stOf detailData).
    repeat split; try done. right. by exists detailRes, detailData.
Qed.




(** The pagination follows the cursor. *)
Lemma loop_tokens apiKey st w o t w' :
  LoopRun apiKey st w o t w' → tokensChained (pageToken st) t.
Proof.
  induction 1 as [| |st w st' t w' Hcap Hrun|st w message t w' Hcap Hrun
                 |st w st1 t1 w1 o t2 w2 Hcap Hrun _ IH]; try done.
  - apply iteration_first_call in Hrun as (res & t' & -> & Hnone). simpl.
    split; [apply searchUrl_pageToken_get|].
    destruct res as [|r]; [|destruct (body_json r)]; by apply tokensChained_no_search.
  - apply iteration_first_call in Hrun as (res & t' & -> & Hnone). simpl.
    split; [apply searchUrl_pageToken_get|].
    destruct res as [|r]; [|destruct (body_json r)]; by apply tokensChained_no_search.
  - apply iteration_returned in Hrun
      as (searchRes & searchData & cands & seen' & st' & Hjson & _ & Hc & _ & Htoken & Ht).
    assert (st1 = st') as ->
        by (destruct (truthyStr (nextPageToken searchData)); congruence).
    rewrite Htoken in IH.
    destruct Ht as [[_ ->]|(detailRes & detailData & _ & ->)]; simpl;
      rewrite Hjson; (split; [apply searchUrl_pageToken_get | exact IH]).
Qed.

(** X10: the search requests of a run follow the cursor: the first one
    carries no [pageToken], and each later one carries as [pageToken] the
    [nextPageToken] of the response to the search request before it. *)
Theorem pagination_follows_the_cursor :
  ∀ (fuel : nat) (apiKey : string) (w : World),
    tokensChained None (fetchYouTubeChannels fuel apiKey w).1.2 ∧
    (∀ url res rest,
        (fetchYouTubeChannels fuel apiKey w).1.2 = SearchCall url res :: rest →
        params_get "pageToken" (searchParams url) = None).
Proof.
  intros fuel apiKey w. rewrite fetchYouTubeChannels_run.
  pose proof (loop_run StringToNumber ObjectToNumber World fetchSearch fetchChannels
                apiKey fuel initialState w) as Hrun.
  destruct (loop fuel apiKey initialState w) as [[o t] w'].
  apply loop_tokens in Hrun. simpl in Hrun.
  assert (Htrace : (match o with
                    | Returned st => (Returned (take MAX_RESULTS (collected st)), t, w')
                    | Thrown message => (Thrown message, t, w')
                    | OutOfFuel => (OutOfFuel, t, w')
                    end).1.2 = t) by by destruct o.
  rewrite Htrace. split; [exact Hrun|].
  intros url res rest ->. by destruct Hrun as [Hfirst _].
Qed.

(** ** What the loop accumulates *)

Lemma loop_grows apiKey st w o t w' :
  LoopRun apiKey st w o t w' →
  ∀ st', o = Returned st' →
         collected st `prefix_of` collected st' ∧ seen st ⊆ seen st'.
Proof.
  assert (Hturn : ∀ st w c t w' st',
             IterationRun apiKey st w (Returned c) t w' →
             c = Continue st' ∨ c = Break st' →
             collected st `prefix_of` collected st' ∧ seen st ⊆ seen st').
  { clear. intros st w c t w' st' Hrun Hc.
    apply iteration_returned in Hrun
      as (searchRes & searchData & cands & seen' & st1 & _ & Hcands & -> & Hseen & _ & Ht).
    assert (st' = st1) as ->
        by (destruct (truthyStr (nextPageToken searchData)), Hc; congruence).
    apply collectCandidates_spec in Hcands as (new & _ & -> & _).
    split; [|rewrite Hseen; set_solver].
    destruct Ht as [[-> _]|(detailRes & detailData & -> & _)]; [done|].
    rewrite mergeDetails_app. by apply prefix_app_r. }
  induction 1 as [| |st w st1 t w' Hcap Hrun|st w message t w' Hcap Hrun
                 |st w st1 t1 w1 o t2 w2 Hcap Hrun _ IH];
    intros st' Ho; try discriminate Ho.
  - by injection Ho as <-.
  - injection Ho as <-. eapply Hturn; eauto.
  - destruct (Hturn _ _ _ _ _ st1 Hrun ltac:(by left)) as [Hpre Hsub].
    destruct (IH st' Ho) as [Hpre' Hsub'].
    split; [by etrans | set_solver].
Qed.

(** X11: the loop only ever appends: the list it ends with starts with the
    list it started from, in the same order, and the set of seen ids it ends
    with holds the set it started from. *)
Theorem loop_only_appends :
  ∀ (fuel : nat) (apiKey : string) (st st' : LoopState) (w : World),
    (loop fuel apiKey st w).1.1 = Returned st' →
    collected st `prefix_of` collected st' ∧ seen st ⊆ seen st'.
Proof.
  intros fuel apiKey st st' w Ho.
  pose proof (loop_run StringToNumber ObjectToNumber World fetchSearch fetchChannels
                apiKey fuel st w) as Hrun.
  destruct (loop fuel apiKey st w) as [[o t] w']. simpl in Ho.
  by eapply loop_grows.
Qed.

(** ** The detail map *)

Lemma detailStep_other (detailMap : gmap string YouTubeChannel) item i :
  (∀ it, item = Some it → item_id it ≠ Some i) →
  detailStep detailMap item !! i = detailMap !! i.
Proof.
  intros Hother. unfold ChannelDiscovery.detailStep.
  destruct item as [it|]; [|done].
  destruct (item_id it) as [j|] eqn:Hj; [|done].
  destruct (negb (truthyStr (Some j))); [done|].
  apply lookup_insert_ne. intros ->. by apply (Hother it).
Qed.

Lemma foldl_detailStep_other items i :
  (∀ it, Some it ∈ items → item_id it ≠ Some i) →
  ∀ detailMap : gmap string YouTubeChannel,
    foldl detailStep detailMap items !! i = detailMap !! i.
Proof.
  induction items as [|item rest IH]; intros Hother detailMap; [done|].
  simpl. rewrite IH.
  - apply detailStep_other. intros it ->. apply Hother. by left.
  - intros it Hit. apply Hother. by right.
Qed.

(** X12: the detail map holds, for an id, the record of the last item of the
    detail response that has this id (a later item replaces an earlier one),
    and nothing for an id that no item has. *)
Theorem detail_map_keeps_the_last_item :
  ∀ (i : string),
    (∀ (before after : list (option ChannelItem)) (item : ChannelItem),
        item_id item = Some i →
        i ≠ EmptyString →
        (∀ it, Some it ∈ after → item_id it ≠ Some i) →
        buildDetailMap (before ++ Some item :: after) !! i = Some (channelOf i item)) ∧
    (∀ (items : list (option ChannelItem)),
        (∀ it, Some it ∈ items → item_id it ≠ Some i) →
        buildDetailMap items !! i = None).
Proof.
  intros i. split.
  - intros before after item Hid Hi Hafter.
    unfold ChannelDiscovery.buildDetailMap. rewrite foldl_app. simpl.
    rewrite (foldl_detailStep_other _ _ Hafter).
    unfold ChannelDiscovery.detailStep at 1. rewrite Hid. simpl.
    assert (Htruthy : negb (String.eqb i EmptyString) = true).
    { apply negb_true_iff. by apply String.eqb_neq. }
    rewrite Htruthy. simpl. apply lookup_insert_eq.
  - intros items Hnone. unfold ChannelDiscovery.buildDetailMap.
    rewrite (foldl_detailStep_other _ _ Hnone). apply lookup_empty.
Qed.

(** X13: the final [slice(0, MAX_RESULTS)] never drops a channel: what
    [fetchYouTubeChannels] returns is the whole list the loop accumulated. *)
Theorem final_slice_drops_nothing :
  ∀ (fuel : nat) (apiKey : string) (w : World) (st : LoopState),
    (loop fuel apiKey initialState w).1.1 = Returned st →
    (fetchYouTubeChannels fuel apiKey w).1.1 = Returned (collected st).
Proof.
  intros fuel apiKey w st Ho. rewrite fetchYouTubeChannels_run.
  pose proof (loop_run StringToNumber ObjectToNumber World fetchSearch fetchChannels
                apiKey fuel initialState w) as Hrun.
  destruct (loop fuel apiKey initialState w) as [[o t] w']. simpl in Ho. subst o.
  destruct (loop_invariant _ _ _ _ _ _ _ _ _ _ _ Hrun initialState_invariant st eq_refl)
    as [Hlen _].
  simpl. by rewrite take_ge.
Qed.

(** Every record of the detail map has finite or absent counts. *)
Lemma numberOrUndefined_finite value :
  finiteOrAbsent (numberOrUndefined StringToNumber ObjectToNumber value) = true.
Proof.
  unfold numberOrUndefined.
  destruct value as [| |b|n|s|l|f]; simpl; try done.
  - by destruct b.
  - by destruct (isFinite n) eqn:Hn.
  - by destruct (isFinite (StringToNumber s)) eqn:Hn.
  - by destruct (isFinite (ObjectToNumber (JArray l))) eqn:Hn.
  - by destruct (isFinite (ObjectToNumber (JObject f))) eqn:Hn.
Qed.

Lemma channelOf_finite i item :
  finiteOrAbsent (subscriberCount (channelOf i item)) = true ∧
  finiteOrAbsent (viewCount (channelOf i item)) = true ∧
  finiteOrAbsent (videoCount (channelOf i item)) = true.
Proof.
  unfold ChannelDiscovery.channelOf. simpl. repeat split.
  - destruct (truthy _); [done|]. apply numberOrUndefined_finite.
  - apply numberOrUndefined_finite.
  - apply numberOrUndefined_finite.
Qed.

(** Every record of the detail map is the record of an item of that id. *)
Lemma buildDetailMap_channelOf items k channel :
  buildDetailMap items !! k = Some channel →
  ∃ item, Some item ∈ items ∧ item_id item = Some k ∧ k ≠ EmptyString ∧
          channel = channelOf k item.
Proof.
  unfold ChannelDiscovery.buildDetailMap.
  assert (Hgen : ∀ (done' : list (option ChannelItem)) (m : gmap string YouTubeChannel),
             (∀ k c, m !! k = Some c →
                     ∃ item, Some item ∈ done' ∧ item_id item = Some k ∧
                             k ≠ EmptyString ∧ c = channelOf k item) →
             ∀ k c, foldl detailStep m items !! k = Some c →
                    ∃ item, Some item ∈ done' ++ items ∧ item_id item = Some k ∧
                            k ≠ EmptyString ∧ c = channelOf k item).
  { induction items as [|item rest IH]; intros done' m Hm k' c' Hk.
    - rewrite app_nil_r. by apply Hm.
    - simpl in Hk. apply (IH (done' ++ [item])) in Hk.
      + by rewrite <- app_assoc in Hk.
      + clear Hk k' c'. intros k' c'. unfold ChannelDiscovery.detailStep.
        assert (Hold : m !! k' = Some c' →
                  ∃ item0, Some item0 ∈ done' ++ [item] ∧ item_id item0 = Some k' ∧
                           k' ≠ EmptyString ∧ c' = channelOf k' item0).
        { intros Hk. apply Hm in Hk as (item0 & Hin & ?). exists item0.
          split; [|done]. apply elem_of_app. by left. }
        destruct item as [it|]; [|done].
        destruct (item_id it) as [j|] eqn:Hj; [|done].
        destruct (negb (truthyStr (Some j))) eqn:Htruthy; [done|].
        rewrite lookup_insert. case_decide as Hjk; [|done].
        subst k'. intros [= <-]. exists it.
        split; [apply elem_of_app; right; by left|]. split; [done|]. split; [|done].
        intros ->. simpl in Htruthy. done. }
  intros Hk. apply (Hgen [] ∅) in Hk; [done|].
  intros k' c'. by rewrite lookup_empty.
Qed.

(** Whatever holds of the record of every detail item holds of every
    channel the loop collects. *)
Lemma loop_provenance (P : YouTubeChannel → Prop) apiKey st w o t w' :
  (∀ i item, item_id item = Some i → i ≠ EmptyString → P (channelOf i item)) →
  LoopRun apiKey st w o t w' →
  Forall P (collected st) →
  ∀ st', o = Returned st' → Forall P (collected st').
Proof.
  intros HP.
  assert (Hturn : ∀ st w c t w' st',
             IterationRun apiKey st w (Returned c) t w' →
             c = Continue st' ∨ c = Break st' →
             Forall P (collected st) → Forall P (collected st')).
  { intros st0 w0 c t0 w0' st' Hrun Hc Hall.
    apply iteration_returned in Hrun
      as (searchRes & searchData & cands & seen' & st1 & _ & _ & -> & _ & _ & Ht).
    assert (st' = st1) as ->
        by (destruct (truthyStr (nextPageToken searchData)), Hc; congruence).
    destruct Ht as [[-> _]|(detailRes & detailData & -> & _)]; [done|].
    rewrite mergeDetails_app. apply Forall_app. split; [done|].
    apply Forall_forall. intros c Hc'.
    apply list_elem_of_omap in Hc' as (i & _ & Hi).
    apply buildDetailMap_channelOf in Hi as (item & _ & Hid & Hne & ->).
    by apply HP. }
  induction 1 as [| |st0 w0 st1 t0 w0' Hcap Hrun|st0 w0 message t0 w0' Hcap Hrun
                 |st0 w0 st1 t1 w1 o t2 w2 Hcap Hrun _ IH];
    intros Hall st' Ho; try discriminate Ho.
  - by injection Ho as <-.
  - injection Ho as <-. eapply Hturn; eauto.
  - apply IH; [|done]. eapply Hturn; eauto.
Qed.

Lemma fetched_provenance (P : YouTubeChannel → Prop) fuel apiKey w channels :
  (∀ i item, item_id item = Some i → i ≠ EmptyString → P (channelOf i item)) →
  (fetchYouTubeChannels fuel apiKey w).1.1 = Returned channels →
  Forall P channels.
Proof.
  intros HP. rewrite fetchYouTubeChannels_run.
  pose proof (loop_run StringToNumber ObjectToNumber World fetchSearch fetchChannels
                apiKey fuel initialState w) as Hrun.
  destruct (loop fuel apiKey initialState w) as [[[st|message|] t] w'];
    simpl; intros [= <-].
  apply Forall_take.
  eapply (loop_provenance P); [exact HP | exact Hrun | constructor | done].
Qed.


End PaginationProperties.

(** * Further properties: the handler and the store *)

Section HandlerProperties.

Variable trim : string -> string.
Variable StringToNumber : string -> jsnum.
Variable ObjectToNumber : JsVal -> jsnum.
Variable World : Type.
Variable fetchSearch : World -> Url -> Fetched SearchData * World.
Variable fetchChannels : World -> Url -> Fetched ChannelsData * World.
Variable upsert :
  World -> SupabaseClient -> string -> Rows -> string -> option string * World.

Local Abbreviation validateBounds := (validateBounds trim StringToNumber ObjectToNumber).
Local Abbreviation loop :=
  (loop StringToNumber ObjectToNumber World fetchSearch fetchChannels).
Local Abbreviation fetchYouTubeChannels :=
  (fetchYouTubeChannels StringToNumber ObjectToNumber World fetchSearch fetchChannels).
Local Abbreviation refresh :=
  (refresh StringToNumber ObjectToNumber World fetchSearch fetchChannels upsert).
Local Abbreviation GET :=
  (GET trim StringToNumber ObjectToNumber World fetchSearch fetchChannels upsert).

(** The body of the [try], case by case. *)
Lemma refresh_cases fuel youtubeApiKey supabase w :
  refresh fuel youtubeApiKey supabase w
  = match fetchYouTubeChannels fuel youtubeApiKey w with
    | (Returned channels, t1, w1) =>
        match channels with
        | [] => (Returned (json completedBody 200), t1, w1)
        | _ :: _ =>
            let channelRows := ChannelRows (map channelRowOf channels) in
            let statsRows := StatsRows (map statsRowOf channels) in
            match upsert w1 supabase "channels" channelRows "id" with
            | (Some message, w2) =>
                (Thrown message,
                 t1 ++ [UpsertCall supabase "channels" channelRows "id" (Some message)],
                 w2)
            | (None, w2) =>
                match upsert w2 supabase "channel_stats" statsRows "channel_id" with
                | (statsError, w3) =>
                    (match statsError with
                     | Some message => Thrown message
                     | None => Returned (json completedBody 200)
                     end,
                     t1 ++ [UpsertCall supabase "channels" channelRows "id" None;
                            UpsertCall supabase "channel_stats" statsRows "channel_id"
                                       statsError],
                     w3)
                end
            end
        end
    | (Thrown message, t1, w1) => (Thrown message, t1, w1)
    | (OutOfFuel, t1, w1) => (OutOfFuel, t1, w1)
    end.
Proof.
  unfold ChannelDiscovery.refresh; unfold bind at 1.
  destruct (fetchYouTubeChannels fuel youtubeApiKey w)
    as [[[channels|message|] t1] w1]; [|done..].
  destruct channels as [|c channels]; [simpl; by rewrite app_nil_r|].
  unfold bind, upsertM, ret, throw. cbv zeta. simpl.
  destruct (upsert w1 supabase "channels" _ "id") as [[message|] w2]; [done|].
  simpl.
  destruct (upsert w2 supabase "channel_stats" _ "channel_id") as [[message|] w3];
    done.
Qed.

(** [GET] answers at once with a 400 or a 500 and no outbound call, or runs
    the [try] with the key and the client of the environment and turns a
    throw into a 500. *)
Lemma GET_split fuel request env w :
  (∃ message code,
      GET fuel request env w = (Returned (json (errorBody message) code), [], w) ∧
      (code = 400 ∨ code = 500)) ∨
  (∃ youtubeApiKey supabase,
      YOUTUBE_API_KEY env = Some youtubeApiKey ∧
      getSupabaseClient env = Some supabase ∧
      GET fuel request env w
      = match refresh fuel youtubeApiKey supabase w with
        | (Thrown message, t, w') => (Returned (json (errorBody message) 500), t, w')
        | r => r
        end).
Proof.
  unfold ChannelDiscovery.GET.
  destruct (validateBounds request) as [response|[lower upper]] eqn:Hvalid.
  { left. apply validateBounds_inl in Hvalid as (message & -> & _).
    exists message, 400. split; [done|by left]. }
  unfold ChannelDiscovery.afterValidation.
  destruct (YOUTUBE_API_KEY env) as [youtubeApiKey|];
    [|left; eexists _, _; split; [done|by right]].
  destruct (negb (truthyStr (Some youtubeApiKey)));
    [left; eexists _, _; split; [done|by right]|].
  destruct (getSupabaseClient env) as [supabase|];
    [|left; eexists _, _; split; [done|by right]].
  right. exists youtubeApiKey, supabase. repeat split.
  unfold catch, ret.
  destruct (refresh fuel youtubeApiKey supabase w) as [[[response|message|] t] w'];
    try done.
  by rewrite app_nil_r.
Qed.

Lemma fetched_no_upsert fuel apiKey w :
  Forall (λ e, isUpsert e = false) (fetchYouTubeChannels fuel apiKey w).1.2.
Proof.
  rewrite fetchYouTubeChannels_run.
  pose proof (loop_run StringToNumber ObjectToNumber World fetchSearch fetchChannels
                apiKey fuel initialState w) as Hrun.
  destruct (loop fuel apiKey initialState w) as [[o t] w'].
  apply loop_no_upsert in Hrun. by destruct o.
Qed.

Lemma fetched_distinct fuel apiKey w channels :
  (fetchYouTubeChannels fuel apiKey w).1.1 = Returned channels →
  NoDup (id <$> channels) ∧ length channels ≤ MAX_RESULTS.
Proof.
  rewrite fetchYouTubeChannels_run.
  pose proof (loop_run StringToNumber ObjectToNumber World fetchSearch fetchChannels
                apiKey fuel initialState w) as Hrun.
  destruct (loop fuel apiKey initialState w) as [[[st|message|] t] w'];
    simpl; intros [= <-].
  destruct (loop_invariant _ _ _ _ _ _ _ _ _ _ _ Hrun initialState_invariant st eq_refl)
    as (Hlen & Hnd & _).
  split.
  - rewrite <- (take_drop MAX_RESULTS (collected st)), fmap_app in Hnd.
    by apply NoDup_app in Hnd as [Hnd _].
  - rewrite length_take. lia.
Qed.

Ltac handler_cases fuel request env w :=
  let code := fresh "code" in
  let Hstatus := fresh "Hstatus" in
  let youtubeApiKey := fresh "youtubeApiKey" in
  let supabase := fresh "supabase" in
  let Hkey := fresh "Hkey" in
  let Hclient := fresh "Hclient" in
  let channels := fresh "channels" in
  let c := fresh "channel" in
  let message := fresh "message" in
  let t1 := fresh "t1" in
  let w1 := fresh "w1" in
  let w2 := fresh "w2" in
  let w3 := fresh "w3" in
  let Hfetch := fresh "Hfetch" in
  destruct (GET_split fuel request env w)
    as [(message & code & -> & Hstatus)
       |(youtubeApiKey & supabase & Hkey & Hclient & ->)];
  [|rewrite refresh_cases;
    pose proof (fetched_no_upsert fuel youtubeApiKey w) as Hnone;
    destruct (fetchYouTubeChannels fuel youtubeApiKey w)
      as [[[channels|message|] t1] w1] eqn:Hfetch;
    [destruct channels as [|c channels];
     [|cbv zeta;
       destruct (upsert w1 supabase "channels" _ "id") as [[message|] w2];
       [|destruct (upsert w2 supabase "channel_stats" _ "channel_id")
           as [[message|] w3]]]
    | | ]];
  simpl in *.


(** Where the rows of an upsert come from. *)
Lemma GET_upsert_rows fuel request env w client table rows onConflict error :
  UpsertCall client table rows onConflict error ∈ (GET fuel request env w).1.2 →
  ∃ youtubeApiKey channels,
    YOUTUBE_API_KEY env = Some youtubeApiKey ∧
    getSupabaseClient env = Some client ∧
    (fetchYouTubeChannels fuel youtubeApiKey w).1.1 = Returned channels ∧
    channels ≠ [] ∧
    (table = "channels" ∧ onConflict = "id" ∧
     rows = ChannelRows (map channelRowOf channels) ∨
     table = "channel_stats" ∧ onConflict = "channel_id" ∧
     rows = StatsRows (map statsRowOf channels)).
Proof.
  assert (Hfetches : ∀ t, Forall (λ e, isUpsert e = false) t →
             UpsertCall client table rows onConflict error ∈ t → False).
  { intros t Hall Hin. rewrite Forall_forall in Hall. by apply Hall in Hin. }
  handler_cases fuel request env w; intros Hin.
  - by apply elem_of_nil in Hin.
  - by apply Hfetches in Hin.
  - apply elem_of_app in Hin as [Hin|Hin]; [by apply Hfetches in Hin|].
    apply list_elem_of_singleton in Hin. injection Hin as -> -> -> -> ->.
    eexists _, _. rewrite Hfetch. repeat split; try done. by left.
  - apply elem_of_app in Hin as [Hin|Hin]; [by apply Hfetches in Hin|].
    apply elem_of_cons in Hin as [Hin|Hin];
      [|apply list_elem_of_singleton in Hin]; injection Hin as -> -> -> -> ->;
      eexists _, _; rewrite Hfetch; repeat split; try done; [by left | by right].
  - apply elem_of_app in Hin as [Hin|Hin]; [by apply Hfetches in Hin|].
    apply elem_of_cons in Hin as [Hin|Hin];
      [|apply list_elem_of_singleton in Hin]; injection Hin as -> -> -> -> ->;
      eexists _, _; rewrite Hfetch; repeat split; try done; [by left | by right].
  - by apply Hfetches in Hin.
  - by apply Hfetches in Hin.
Qed.

(** X16: nothing is written while the pages are read: in the trace of [GET]
    every upsert comes after every request to the upstream API, there are at
    most two of them, both made through the client of the environment from
    the channels the discovery returned (a list that is not empty): first
    the channel rows into "channels" on conflict "id", then, only when the
    store accepted those, the stats rows into "channel_stats" on conflict
    "channel_id". *)
Theorem upserts_follow_discovery :
  ∀ (fuel : nat) (request : Query) (env : Env) (w : World),
  ∃ t1 t2,
    (GET fuel request env w).1.2 = t1 ++ t2 ∧
    Forall (λ e, isUpsert e = false) t1 ∧
    (t2 = [] ∨
     ∃ youtubeApiKey supabase channels,
       YOUTUBE_API_KEY env = Some youtubeApiKey ∧
       getSupabaseClient env = Some supabase ∧
       (fetchYouTubeChannels fuel youtubeApiKey w).1.1 = Returned channels ∧
       channels ≠ [] ∧
       ((∃ message,
            t2 = [UpsertCall supabase "channels"
                             (ChannelRows (map channelRowOf channels)) "id"
                             (Some message)]) ∨
        (∃ statsError,
            t2 = [UpsertCall supabase "channels"
                             (ChannelRows (map channelRowOf channels)) "id" None;
                  UpsertCall supabase "channel_stats"
                             (StatsRows (map statsRowOf channels)) "channel_id"
                             statsError]))).
Proof.
  intros fuel request env w. handler_cases fuel request env w.
  - exists [], []. repeat split; [constructor | by left].
  - exists t1, []. rewrite app_nil_r. repeat split; [done | by left].
  - eexists t1, _. split; [reflexivity|]. split; [done|]. right.
    eexists _, _, _. rewrite Hfetch. repeat split; try done. left. by eexists.
  - eexists t1, _. split; [reflexivity|]. split; [done|]. right.
    eexists _, _, _. rewrite Hfetch. repeat split; try done. right. by eexists.
  - eexists t1, _. split; [reflexivity|]. split; [done|]. right.
    eexists _, _, _. rewrite Hfetch. repeat split; try done. right. by eexists.
  - exists t1, []. rewrite app_nil_r. repeat split; [done | by left].
  - exists t1, []. rewrite app_nil_r. repeat split; [done | by left].
Qed.

(** X17: an upsert the store rejects ends the run: it is the last outbound
    call (a rejected channels upsert is not followed by the stats upsert),
    and the answer is a 500 whose error is the message of the store. *)
Theorem store_error_ends_the_run :
  ∀ (fuel : nat) (request : Query) (env : Env) (w : World)
    (client : SupabaseClient) (table : string) (rows : Rows) (onConflict : string)
    (message : string),
    UpsertCall client table rows onConflict (Some message)
      ∈ (GET fuel request env w).1.2 →
    (GET fuel request env w).1.1 = Returned (json (errorBody message) 500) ∧
    ∃ t, (GET fuel request env w).1.2
         = t ++ [UpsertCall client table rows onConflict (Some message)].
Proof.
  intros fuel request env w client table rows onConflict msg.
  assert (Hfetches : ∀ t, Forall (λ e, isUpsert e = false) t →
             UpsertCall client table rows onConflict (Some msg) ∈ t → False).
  { intros t Hall Hin. rewrite Forall_forall in Hall. by apply Hall in Hin. }
  handler_cases fuel request env w; intros Hin.
  - by apply elem_of_nil in Hin.
  - by apply Hfetches in Hin.
  - apply elem_of_app in Hin as [Hin|Hin]; [by apply Hfetches in Hin|].
    apply list_elem_of_singleton in Hin. injection Hin as -> -> -> -> ->.
    split; [done | by eexists].
  - apply elem_of_app in Hin as [Hin|Hin]; [by apply Hfetches in Hin|].
    apply elem_of_cons in Hin as [Hin|Hin]; [discriminate Hin|].
    apply list_elem_of_singleton in Hin. injection Hin as -> -> -> -> ->.
    split; [done|]. eexists (t1 ++ [_]). by rewrite <- app_assoc.
  - apply elem_of_app in Hin as [Hin|Hin]; [by apply Hfetches in Hin|].
    apply elem_of_cons in Hin as [Hin|Hin]; [discriminate Hin|].
    apply list_elem_of_singleton in Hin. discriminate Hin.
  - by apply Hfetches in Hin.
  - by apply Hfetches in Hin.
Qed.

Lemma channelRow_ids (channels : list YouTubeChannel) :
  row_id <$> map channelRowOf channels = id <$> channels.
Proof. induction channels as [|c l IH]; [done|]. simpl. by f_equal. Qed.

Lemma statsRow_ids (channels : list YouTubeChannel) :
  channel_id <$> map statsRowOf channels = id <$> channels.
Proof. induction channels as [|c l IH]; [done|]. simpl. by f_equal. Qed.

(** X18: every batch the handler upserts has between 1 and 100 rows with
    pairwise distinct conflict keys, and goes to the table of its row shape:
    channel rows to "channels" on conflict "id", stats rows to
    "channel_stats" on conflict "channel_id". *)
Theorem upserted_keys_are_distinct :
  ∀ (fuel : nat) (request : Query) (env : Env) (w : World)
    (client : SupabaseClient) (table : string) (rows : Rows) (onConflict : string)
    (error : option string),
    UpsertCall client table rows onConflict error ∈ (GET fuel request env w).1.2 →
    match rows with
    | ChannelRows l =>
        table = "channels" ∧ onConflict = "id" ∧
        NoDup (row_id <$> l) ∧ 1 ≤ length l ≤ 100
    | StatsRows l =>
        table = "channel_stats" ∧ onConflict = "channel_id" ∧
        NoDup (channel_id <$> l) ∧ 1 ≤ length l ≤ 100
    end.
Proof.
  intros fuel request env w client table rows onConflict error Hin.
  apply GET_upsert_rows in Hin
    as (key & channels & _ & _ & Hfetch & Hne & Hrows).
  apply fetched_distinct in Hfetch as [Hnd Hlen].
  assert (Hpos : 1 ≤ length channels) by (destruct channels; [done|simpl; lia]).
  unfold MAX_RESULTS in Hlen.
  destruct Hrows as [(-> & -> & ->)|(-> & -> & ->)].
  - rewrite channelRow_ids, length_map. by repeat split.
  - rewrite statsRow_ids, length_map. by repeat split.
Qed.

(** X19: the rows the handler upserts carry what the upstream API gave and
    nothing ill-formed: the key of every row is a non-empty string, and each
    count of a stats row is a finite number or null. *)
Theorem upserted_rows_are_well_formed :
  ∀ (fuel : nat) (request : Query) (env : Env) (w : World)
    (client : SupabaseClient) (table : string) (rows : Rows) (onConflict : string)
    (error : option string),
    UpsertCall client table rows onConflict error ∈ (GET fuel request env w).1.2 →
    match rows with
    | ChannelRows l => Forall (λ row, row_id row ≠ EmptyString) l
    | StatsRows l =>
        Forall (λ row, channel_id row ≠ EmptyString ∧
                       finiteOrAbsent (subscriber_count row) = true ∧
                       finiteOrAbsent (view_count row) = true ∧
                       finiteOrAbsent (video_count row) = true) l
    end.
Proof.
  intros fuel request env w client table rows onConflict error Hin.
  apply GET_upsert_rows in Hin
    as (key & channels & _ & _ & Hfetch & Hne & Hrows).
  pose proof (fetched_provenance StringToNumber ObjectToNumber World fetchSearch
                fetchChannels
                (λ c, id c ≠ EmptyString ∧
                      finiteOrAbsent (subscriberCount c) = true ∧
                      finiteOrAbsent (viewCount c) = true ∧
                      finiteOrAbsent (videoCount c) = true)
                fuel key w channels) as Hall.
  assert (Hchannels : Forall (λ c, id c ≠ EmptyString ∧
                                   finiteOrAbsent (subscriberCount c) = true ∧
                                   finiteOrAbsent (viewCount c) = true ∧
                                   finiteOrAbsent (videoCount c) = true) channels).
  { apply Hall; [|done]. intros i item _ Hi. split; [done|].
    apply channelOf_finite. }
  destruct Hrows as [(-> & -> & ->)|(-> & -> & ->)].
  - apply Forall_forall. intros row Hrow.
    apply list_elem_of_fmap in Hrow as (c & -> & Hc).
    rewrite Forall_forall in Hchannels. by apply Hchannels in Hc as [Hc _].
  - apply Forall_forall. intros row Hrow.
    apply list_elem_of_fmap in Hrow as (c & -> & Hc).
    rewrite Forall_forall in Hchannels. apply Hchannels in Hc as (? & Hs & Hv & Hd).
    unfold statsRowOf. simpl.
    by destruct (subscriberCount c), (viewCount c), (videoCount c).
Qed.

End HandlerProperties.

(** * Further properties: the video sync route *)

(** The rows of a page are the rows of its items, one for one, and there are
    rows only when every item has an [id] and a [snippet]. *)
Lemma rowsOf_inr items :
  ∀ rows, VideoSync.rowsOf items = inr rows →
          Forall2 (λ item row, VideoSync.rowOf item = inr row) items rows.
Proof.
  induction items as [|item rest IH]; intros rows; simpl.
  - intros [= <-]. constructor.
  - destruct (VideoSync.rowOf item) as [message|row] eqn:Hrow; [done|].
    destruct (VideoSync.rowsOf rest) as [message|rows']; [done|].
    intros [= <-]. constructor; [done | by apply IH].
Qed.

Lemma rowsOf_inl items :
  (∃ item, item ∈ items ∧
           (VideoSync.id item = None ∨ VideoSync.snippet item = None)) →
  ∃ message, VideoSync.rowsOf items = inl message.
Proof.
  induction items as [|item rest IH]; intros (bad & Hin & Hbad).
  - by apply elem_of_nil in Hin.
  - simpl. destruct (VideoSync.rowOf item) as [message|row] eqn:Hrow; [by eexists|].
    apply elem_of_cons in Hin as [->|Hin].
    + unfold VideoSync.rowOf in Hrow.
      destruct Hbad as [Hbad|Hbad]; rewrite Hbad in Hrow; [done|].
      by destruct (VideoSync.id item).
    + destruct IH as [message ->]; [by exists bad|]. by eexists.
Qed.

Section VideoSyncRuns.

Variable World : Type.
Variable fetch : World -> string -> Fetched VideoSync.VideoData * World.
Variable upsert :
  World -> VideoSync.SupabaseClient -> string -> list VideoSync.VideoRow -> string
  -> option string * World.

Local Abbreviation sync := (VideoSync.sync World fetch upsert).

(** The body of the [try], case by case. *)
Lemma sync_cases env w :
  sync env w
  = let url := VideoSync.requestUrl env in
    match fetch w url with
    | (inl message, w1) => (Thrown message, [VideoSync.FetchCall url (inl message)], w1)
    | (inr youtubeRes, w1) =>
        let t := [VideoSync.FetchCall url (inr youtubeRes)] in
        if ok youtubeRes then
          match body_json youtubeRes with
          | inl message => (Thrown message, t, w1)
          | inr data =>
              match VideoSync.createClient (VideoSync.SUPABASE_URL env)
                                           (VideoSync.SUPABASE_SERVICE_ROLE_KEY env) with
              | inl message => (Thrown message, t, w1)
              | inr supabase =>
                  match match VideoSync.items data with
                        | Some items => VideoSync.rowsOf items
                        | None => inl "Cannot read properties of undefined (reading 'map')"
                        end with
                  | inl message => (Thrown message, t, w1)
                  | inr rows =>
                      match upsert w1 supabase "videos" rows "video_id" with
                      | (error, w2) =>
                          (match error with
                           | Some message => Thrown message
                           | None =>
                               Returned (json (JObject [("inserted",
                                                         numOfNat (length rows))]) 200)
                           end,
                           t ++ [VideoSync.UpsertCall supabase "videos" rows "video_id"
                                                      error],
                           w2)
                      end
                  end
              end
          end
        else (Thrown "YouTube API request failed", t, w1)
    end.
Proof.
  unfold VideoSync.sync, bind, VideoSync.fetchM, VideoSync.upsertM,
    VideoSync.orThrow, throw, ret. cbv zeta.
  destruct (fetch w (VideoSync.requestUrl env)) as [[message|youtubeRes] w1]; [done|].
  destruct (ok youtubeRes); simpl; [|done].
  destruct (body_json youtubeRes) as [message|data]; simpl; [done|].
  destruct (VideoSync.createClient _ _) as [message|supabase]; simpl; [done|].
  destruct (match VideoSync.items data with Some _ => _ | None => _ end)
    as [message|rows]; simpl; [done|].
  destruct (upsert w1 supabase "videos" rows "video_id") as [[message|] w2]; done.
Qed.

(** The handler: what the [try] gives, a throw being logged and answered
    with the fixed 500. *)
Lemma video_GET_cases env w :
  VideoSync.GET World fetch upsert env w
  = match sync env w with
    | (Thrown message, t, w') =>
        (Returned (json (errorBody "batch failed") 500),
         t ++ [VideoSync.ConsoleError message], w')
    | r => r
    end.
Proof.
  unfold VideoSync.GET, catch, bind, VideoSync.consoleError, ret.
  by destruct (sync env w) as [[[response|message|] t] w'].
Qed.

Ltac video_cases env w :=
  rewrite video_GET_cases, sync_cases; cbv zeta;
  destruct (fetch w (VideoSync.requestUrl env)) as [[?message|?youtubeRes] ?w1] eqn:?Hfetch;
  [|destruct (ok youtubeRes) eqn:?Hok;
    [destruct (body_json youtubeRes) as [?message|?data] eqn:?Hjson;
     [|destruct (VideoSync.createClient _ _) as [?message|?supabase] eqn:?Hclient;
       [|destruct (VideoSync.items data) as [?items|] eqn:?Hitems;
         [destruct (VideoSync.rowsOf items) as [?message|?rows] eqn:?Hrows;
          [|destruct (upsert w1 supabase "videos" rows "video_id")
              as [[?message|] ?w2] eqn:?Hupsert]
         |]]]
    |]];
  simpl.

(** X20: the video sync handler never lets an exception out and always ends:
    it answers 200 with [{ inserted: n }], or 500 with the fixed error "batch
    failed"; a 500 comes with exactly one console log, made last, and a 200
    with none. *)
Theorem video_sync_never_throws :
  ∀ (env : VideoSync.Env) (w : World),
    let run := VideoSync.GET World fetch upsert env w in
    (∃ n, run.1.1 = Returned (json (JObject [("inserted", numOfNat n)]) 200) ∧
          Forall (λ e, match e with VideoSync.ConsoleError _ => False | _ => True end)
                 run.1.2) ∨
    (run.1.1 = Returned (json (errorBody "batch failed") 500) ∧
     ∃ t message,
       run.1.2 = t ++ [VideoSync.ConsoleError message] ∧
       Forall (λ e, match e with VideoSync.ConsoleError _ => False | _ => True end) t).
Proof.
  intros env w run. subst run. video_cases env w.
  all: try (right; split; [done|];
            first [ eexists [_], _; split; [reflexivity|]
                  | eexists [_; _], _; split; [reflexivity|] ];
            by repeat constructor).
  left. eexists. split; [done|]. by repeat constructor.
Qed.

(** X21: a 200 of the video sync handler reports what it wrote: the upstream
    response was a success with a list of items each having an [id] and a
    [snippet], the handler made one upsert into "videos" on conflict
    "video_id" of one row per item, in the order of the items, the store
    accepted it, and [inserted] is the number of items. *)
Theorem video_sync_reports_what_it_wrote :
  ∀ (env : VideoSync.Env) (w : World) (response : NextResponse),
    (VideoSync.GET World fetch upsert env w).1.1 = Returned response →
    res_status response = 200 →
    ∃ youtubeRes items rows supabase,
      ok youtubeRes = true ∧
      body_json youtubeRes = inr {| VideoSync.items := Some items |} ∧
      Forall2 (λ item row, VideoSync.rowOf item = inr row) items rows ∧
      (VideoSync.GET World fetch upsert env w).1.2
      = [VideoSync.FetchCall (VideoSync.requestUrl env) (inr youtubeRes);
         VideoSync.UpsertCall supabase "videos" rows "video_id" None] ∧
      response = json (JObject [("inserted", numOfNat (length items))]) 200.
Proof.
  intros env w response. video_cases env w; intros [= <-]; try done.
  intros _. exists youtubeRes, items, rows, supabase.
  pose proof (rowsOf_inr _ _ Hrows) as Hall.
  repeat split; try done.
  - rewrite Hjson. destruct data as [i]. simpl in Hitems. by subst i.
  - by rewrite (Forall2_length _ _ _ Hall).
Qed.

(** X22: the video sync handler writes all the rows of a page or none: when
    the upstream response is not a success, or the page has no list of items,
    or one of its items lacks its [id] or its [snippet], the handler makes no
    upsert and answers 500 "batch failed". *)
Theorem video_sync_writes_all_or_nothing :
  ∀ (env : VideoSync.Env) (w w1 : World) (youtubeRes : HttpResponse VideoSync.VideoData),
    fetch w (VideoSync.requestUrl env) = (inr youtubeRes, w1) →
    (ok youtubeRes = false ∨
     (∃ data, body_json youtubeRes = inr data ∧
              (VideoSync.items data = None ∨
               ∃ items item,
                 VideoSync.items data = Some items ∧ item ∈ items ∧
                 (VideoSync.id item = None ∨ VideoSync.snippet item = None)))) →
    (VideoSync.GET World fetch upsert env w).1.1
    = Returned (json (errorBody "batch failed") 500) ∧
    Forall (λ e, VideoSync.isUpsert e = false)
           (VideoSync.GET World fetch upsert env w).1.2.
Proof.
  intros env w w1 res Hfetch Hbad.
  rewrite video_GET_cases, sync_cases. cbv zeta. rewrite Hfetch.
  destruct (ok res) eqn:Hok; [|simpl; split; [done | by repeat constructor]].
  destruct Hbad as [Hbad|(data & Hjson & Hbad)]; [congruence|]. rewrite Hjson.
  destruct (VideoSync.createClient _ _) as [message|supabase];
    [simpl; split; [done | by repeat constructor]|].
  destruct Hbad as [Hnone|(items & item & Hitems & Hin & Hbad)].
  - rewrite Hnone. simpl. split; [done | by repeat constructor].
  - rewrite Hitems.
    destruct (rowsOf_inl items ltac:(by exists item)) as [message ->].
    simpl. split; [done | by repeat constructor].
Qed.

(** X23: when the store rejects the upsert of the video sync handler, the
    message of the store goes to the console and not to the caller: the run
    is the request, the upsert, the console log of that message, and the
    answer is the fixed 500 "batch failed". *)
Theorem video_sync_hides_the_store_error :
  ∀ (env : VideoSync.Env) (w : World) (supabase : VideoSync.SupabaseClient)
    (table : string) (rows : list VideoSync.VideoRow) (onConflict : string)
    (message : string),
    VideoSync.UpsertCall supabase table rows onConflict (Some message)
      ∈ (VideoSync.GET World fetch upsert env w).1.2 →
    (VideoSync.GET World fetch upsert env w).1.1
    = Returned (json (errorBody "batch failed") 500) ∧
    ∃ youtubeRes,
      (VideoSync.GET World fetch upsert env w).1.2
      = [VideoSync.FetchCall (VideoSync.requestUrl env) (inr youtubeRes);
         VideoSync.UpsertCall supabase table rows onConflict (Some message);
         VideoSync.ConsoleError message].
Proof.
  intros env w client table rows' onConflict msg. video_cases env w; intros Hin.
  all: repeat (apply elem_of_cons in Hin as [Hin|Hin]; [try discriminate Hin|]);
    try (by apply elem_of_nil in Hin).
  injection Hin as -> -> -> -> ->. split; [done|]. by eexists.
Qed.

End VideoSyncRuns.

(** * The further properties on the example worlds *)

Lemma parseBound_never_negative_witness :
  parseBound Examples.trim Examples.StringToNumber Examples.ObjectToNumber
             (Some "500") 0%Z = inr 500%Z ∧
  (0 ≤ 500)%Z.
Proof.
  assert (H : parseBound Examples.trim Examples.StringToNumber Examples.ObjectToNumber
                         (Some "500") 0%Z = inr 500%Z) by (vm_compute; reflexivity).
  split; [exact H|].
  exact (proj1 (proj1 (parseBound_never_negative Examples.trim Examples.StringToNumber
                         Examples.ObjectToNumber (Some "500") 0%Z ltac:(lia))
                      500%Z H)).
Defined.

Lemma validated_bounds_are_ordered_witness :
  validateBounds Examples.trim Examples.StringToNumber Examples.ObjectToNumber
                 Examples.wideBounds = inr (500%Z, 10000%Z) ∧
  (0 ≤ 500)%Z ∧ (500 ≤ 10000)%Z ∧ (10000 ≤ 10000)%Z.
Proof.
  assert (H : validateBounds Examples.trim Examples.StringToNumber
                Examples.ObjectToNumber Examples.wideBounds = inr (500%Z, 10000%Z))
    by (vm_compute; reflexivity).
  split; [exact H|].
  exact (validated_bounds_are_ordered _ _ _ _ _ _ H).
Defined.

Lemma rejected_request_reaches_nothing_witness :
  Examples.GET 10 Examples.negativeBound Examples.env Examples.pagedWorld
  = (Returned (json (errorBody "Invalid numeric parameter") 400), [],
     Examples.pagedWorld).
Proof.
  assert (H : validateBounds Examples.trim Examples.StringToNumber
                Examples.ObjectToNumber Examples.negativeBound
              = inl (json (errorBody "Invalid numeric parameter") 400))
    by (vm_compute; reflexivity).
  exact (proj1 (rejected_request_reaches_nothing Examples.trim Examples.StringToNumber
                  Examples.ObjectToNumber _ Examples.fetchSearch Examples.fetchChannels
                  Examples.upsert 10 Examples.negativeBound Examples.env
                  Examples.pagedWorld _ H)).
Defined.

Lemma inverted_bounds_are_rejected_witness :
  Examples.GET 10 Examples.invertedBounds Examples.env Examples.pagedWorld
  = (Returned
       (json (errorBody "minSubscribers must be less than or equal to maxSubscribers")
             400),
     [], Examples.pagedWorld).
Proof.
  apply (inverted_bounds_are_rejected Examples.trim Examples.StringToNumber
           Examples.ObjectToNumber _ Examples.fetchSearch Examples.fetchChannels
           Examples.upsert 10 Examples.invertedBounds Examples.env
           Examples.pagedWorld 500%Z 100%Z).
  - vm_compute; reflexivity.
  - vm_compute; reflexivity.
  - lia.
  - lia.
Defined.

Lemma blank_parameter_is_missing_witness :
  Examples.GET 10 {| get_minSubscribers := Some "  "; get_maxSubscribers := Some "50" |}
               Examples.env Examples.pagedWorld
  = Examples.GET 10 {| get_minSubscribers := None; get_maxSubscribers := Some "50" |}
                 Examples.env Examples.pagedWorld.
Proof.
  apply (proj1 (blank_parameter_is_missing Examples.trim Examples.StringToNumber
                  Examples.ObjectToNumber _ Examples.fetchSearch Examples.fetchChannels
                  Examples.upsert 10 Examples.env Examples.pagedWorld "  " (Some "50")
                  eq_refl)).
Defined.

Lemma missing_configuration_reaches_nothing_witness :
  Examples.GET 10 Examples.noBounds Examples.emptyKeyEnv Examples.pagedWorld
  = (Returned (json (errorBody "Server is not configured with Supabase credentials") 500),
     [], Examples.pagedWorld).
Proof.
  apply (proj2 (missing_configuration_reaches_nothing Examples.trim
                  Examples.StringToNumber Examples.ObjectToNumber _
                  Examples.fetchSearch Examples.fetchChannels Examples.upsert
                  10 Examples.noBounds Examples.emptyKeyEnv Examples.pagedWorld
                  (0%Z, 10000%Z) ltac:(vm_compute; reflexivity)));
    reflexivity.
Defined.


Lemma candidates_of_a_page_witness :
  collectCandidates Examples.firstPageItems 100 [] {["b"]} = (["a"; "c"], {["c"; "a"; "b"]}) ∧
  NoDup ["a"; "c"] ∧
  sublist ["a"; "c"] (omap channelIdOf Examples.firstPageItems).
Proof.
  assert (H : collectCandidates Examples.firstPageItems 100 [] {["b"]}
              = (["a"; "c"], {["c"; "a"; "b"]})) by (vm_compute; reflexivity).
  destruct (candidates_of_a_page _ _ _ _ _ H) as (Hsub & Hnd & _).
  split; [exact H | split; [exact Hnd | exact Hsub]].
Defined.

Section VideoSyncConfiguration.

Variable World : Type.
Variable fetch : World -> string -> Fetched VideoSync.VideoData * World.
Variable upsert :
  World -> VideoSync.SupabaseClient -> string -> list VideoSync.VideoRow -> string
  -> option string * World.

(** X24: the video sync handler calls the upstream API before it looks at the
    store credentials: with [SUPABASE_URL] or [SUPABASE_SERVICE_ROLE_KEY]
    missing or empty and an upstream success, the run is the request and a
    console log, with no upsert, and the answer is 500 "batch failed". *)
Theorem video_sync_fetches_before_the_credentials :
  ∀ (env : VideoSync.Env) (w w1 : World)
    (youtubeRes : HttpResponse VideoSync.VideoData) (data : VideoSync.VideoData),
    fetch w (VideoSync.requestUrl env) = (inr youtubeRes, w1) →
    ok youtubeRes = true →
    body_json youtubeRes = inr data →
    truthyStr (VideoSync.SUPABASE_URL env) = false ∨
    truthyStr (VideoSync.SUPABASE_SERVICE_ROLE_KEY env) = false →
    ∃ message,
      VideoSync.GET World fetch upsert env w
      = (Returned (json (errorBody "batch failed") 500),
         [VideoSync.FetchCall (VideoSync.requestUrl env) (inr youtubeRes);
          VideoSync.ConsoleError message],
         w1).
Proof.
  intros env w w1 youtubeRes data Hfetch Hok Hjson Hmissing.
  rewrite video_GET_cases, sync_cases. cbv zeta. rewrite Hfetch, Hok, Hjson.
  assert (Hclient : ∃ message,
             VideoSync.createClient (VideoSync.SUPABASE_URL env)
                                    (VideoSync.SUPABASE_SERVICE_ROLE_KEY env)
             = inl message).
  { unfold VideoSync.createClient.
    destruct (VideoSync.SUPABASE_URL env) as [u|]; [|by eexists].
    destruct (truthyStr (Some u)) eqn:Hu; simpl; [|by eexists].
    destruct Hmissing as [Hm|Hm]; [done|].
    destruct (VideoSync.SUPABASE_SERVICE_ROLE_KEY env) as [k|]; [|by eexists].
    rewrite Hm. by eexists. }
  destruct Hclient as [message ->]. by exists message.
Qed.

End VideoSyncConfiguration.

Lemma loop_only_appends_witness :
  (Examples.runLoop 10 "key" initialState Examples.pagedWorld).1.1
  = Returned Examples.pagedFinalState ∧
  collected initialState `prefix_of` collected Examples.pagedFinalState ∧
  seen initialState ⊆ seen Examples.pagedFinalState.
Proof.
  assert (H : (Examples.runLoop 10 "key" initialState Examples.pagedWorld).1.1
              = Returned Examples.pagedFinalState) by (vm_compute; reflexivity).
  split; [exact H|].
  exact (loop_only_appends _ _ _ _ _ 10 "key" initialState _ Examples.pagedWorld H).
Defined.

Lemma detail_map_keeps_the_last_item_witness :
  buildDetailMap Examples.StringToNumber Examples.ObjectToNumber
    ([Some {| item_id := Some "c"; snippet := None; statistics := None;
              item_etag := Some "old" |}]
       ++ Some Examples.hiddenItem
       :: [Some {| item_id := Some "a"; snippet := None; statistics := None;
                   item_etag := None |}]) !! "c"
  = Some (channelOf Examples.StringToNumber Examples.ObjectToNumber "c"
                    Examples.hiddenItem).
Proof.
  apply (proj1 (detail_map_keeps_the_last_item Examples.StringToNumber
                  Examples.ObjectToNumber "c")); [reflexivity | done |].
  intros it Hit. apply list_elem_of_singleton in Hit. by injection Hit as ->.
Defined.

Lemma final_slice_drops_nothing_witness :
  (Examples.discover 10 "key" Examples.pagedWorld).1.1
  = Returned (collected Examples.pagedFinalState).
Proof.
  exact (final_slice_drops_nothing Examples.StringToNumber Examples.ObjectToNumber _
           Examples.fetchSearch Examples.fetchChannels 10 "key" Examples.pagedWorld
           Examples.pagedFinalState ltac:(vm_compute; reflexivity)).
Defined.


Lemma store_error_ends_the_run_witness :
  (Examples.rejectedGET 10 Examples.noBounds Examples.env Examples.pagedWorld).1.1
  = Returned (json (errorBody "permission denied") 500) ∧
  List.filter isUpsert
    (Examples.rejectedGET 10 Examples.noBounds Examples.env Examples.pagedWorld).1.2
  = [UpsertCall {| supabaseUrl := "https://db.example"; supabaseKey := "service" |}
                "channels" (ChannelRows (map channelRowOf Examples.pagedChannels)) "id"
                (Some "permission denied")].
Proof.
  split; [|vm_compute; reflexivity].
  apply (store_error_ends_the_run Examples.trim Examples.StringToNumber
           Examples.ObjectToNumber _ Examples.fetchSearch Examples.fetchChannels
           Examples.rejectingUpsert 10 Examples.noBounds Examples.env
           Examples.pagedWorld
           {| supabaseUrl := "https://db.example"; supabaseKey := "service" |}
           "channels" (ChannelRows (map channelRowOf Examples.pagedChannels)) "id"
           "permission denied").
  vm_compute. do 5 right. left.
Defined.

Lemma upserted_keys_are_distinct_witness :
  NoDup (row_id <$> map channelRowOf Examples.pagedChannels) ∧
  1 ≤ length (map channelRowOf Examples.pagedChannels) ≤ 100.
Proof.
  apply (upserted_keys_are_distinct Examples.trim Examples.StringToNumber
           Examples.ObjectToNumber _ Examples.fetchSearch Examples.fetchChannels
           Examples.upsert 10 Examples.noBounds Examples.env Examples.pagedWorld
           {| supabaseUrl := "https://db.example"; supabaseKey := "service" |}
           "channels" (ChannelRows (map channelRowOf Examples.pagedChannels)) "id"
           None).
  vm_compute. do 5 right. left.
Defined.

Lemma upserted_rows_are_well_formed_witness :
  Forall (λ row, channel_id row ≠ EmptyString ∧
                 finiteOrAbsent (subscriber_count row) = true ∧
                 finiteOrAbsent (view_count row) = true ∧
                 finiteOrAbsent (video_count row) = true)
         (map statsRowOf Examples.pagedChannels).
Proof.
  apply (upserted_rows_are_well_formed Examples.trim Examples.StringToNumber
           Examples.ObjectToNumber _ Examples.fetchSearch Examples.fetchChannels
           Examples.upsert 10 Examples.noBounds Examples.env Examples.pagedWorld
           {| supabaseUrl := "https://db.example"; supabaseKey := "service" |}
           "channel_stats" (StatsRows (map statsRowOf Examples.pagedChannels))
           "channel_id" None).
  vm_compute. do 6 right. left.
Defined.

Lemma video_sync_reports_what_it_wrote_witness :
  (Examples.videoGET (inr Examples.twoVideosRes)).1.1
  = Returned (json (JObject [("inserted", numOfNat 2)]) 200) ∧
  ∃ youtubeRes items rows supabase,
    ok youtubeRes = true ∧
    body_json youtubeRes = inr {| VideoSync.items := Some items |} ∧
    Forall2 (λ item row, VideoSync.rowOf item = inr row) items rows ∧
    (Examples.videoGET (inr Examples.twoVideosRes)).1.2
    = [VideoSync.FetchCall (VideoSync.requestUrl Examples.videoEnv) (inr youtubeRes);
       VideoSync.UpsertCall supabase "videos" rows "video_id" None] ∧
    json (JObject [("inserted", numOfNat 2)]) 200
    = json (JObject [("inserted", numOfNat (length items))]) 200.
Proof.
  assert (H : (Examples.videoGET (inr Examples.twoVideosRes)).1.1
              = Returned (json (JObject [("inserted", numOfNat 2)]) 200))
    by (vm_compute; reflexivity).
  split; [exact H|].
  exact (video_sync_reports_what_it_wrote _ Examples.videoFetch Examples.videoUpsert
           Examples.videoEnv (inr Examples.twoVideosRes) _ H eq_refl).
Defined.

Lemma video_sync_writes_all_or_nothing_witness :
  (Examples.videoGET (inr Examples.brokenVideosRes)).1.1
  = Returned (json (errorBody "batch failed") 500) ∧
  Forall (λ e, VideoSync.isUpsert e = false)
         (Examples.videoGET (inr Examples.brokenVideosRes)).1.2.
Proof.
  apply (video_sync_writes_all_or_nothing _ Examples.videoFetch Examples.videoUpsert
           Examples.videoEnv (inr Examples.brokenVideosRes)
           (inr Examples.brokenVideosRes) Examples.brokenVideosRes eq_refl).
  right. eexists. split; [reflexivity|]. right. eexists _, _.
  split; [reflexivity|]. split; [right; left|]. by right.
Defined.

Lemma video_sync_hides_the_store_error_witness :
  (VideoSync.GET _ Examples.videoFetch Examples.videoUpsertRejecting Examples.videoEnv
                 Examples.noVideos).1.1
  = Returned (json (errorBody "batch failed") 500) ∧
  ∃ youtubeRes,
    (VideoSync.GET _ Examples.videoFetch Examples.videoUpsertRejecting Examples.videoEnv
                   Examples.noVideos).1.2
    = [VideoSync.FetchCall (VideoSync.requestUrl Examples.videoEnv) (inr youtubeRes);
       VideoSync.UpsertCall
         {| VideoSync.supabaseUrl := "https://db.example";
            VideoSync.supabaseKey := "service" |}
         "videos" [] "video_id" (Some "permission denied");
       VideoSync.ConsoleError "permission denied"].
Proof.
  apply (video_sync_hides_the_store_error _ Examples.videoFetch
           Examples.videoUpsertRejecting Examples.videoEnv Examples.noVideos
           {| VideoSync.supabaseUrl := "https://db.example";
              VideoSync.supabaseKey := "service" |}
           "videos" [] "video_id" "permission denied").
  vm_compute. right. left.
Defined.

Lemma video_sync_fetches_before_the_credentials_witness :
  ∃ message,
    VideoSync.GET _ Examples.videoFetch Examples.videoUpsert Examples.videoEnvNoUrl
                  (inr Examples.twoVideosRes)
    = (Returned (json (errorBody "batch failed") 500),
       [VideoSync.FetchCall (VideoSync.requestUrl Examples.videoEnvNoUrl)
                            (inr Examples.twoVideosRes);
        VideoSync.ConsoleError message],
       inr Examples.twoVideosRes).
Proof.
  apply (video_sync_fetches_before_the_credentials _ Examples.videoFetch
           Examples.videoUpsert Examples.videoEnvNoUrl (inr Examples.twoVideosRes)
           (inr Examples.twoVideosRes) Examples.twoVideosRes
           {| VideoSync.items := Some [Examples.video "v1" "one";
                                       Examples.video "v2" "two"] |}
           eq_refl eq_refl eq_refl).
  by left.
Defined.

Section CapProperties.

Variable StringToNumber : string -> jsnum.
Variable ObjectToNumber : JsVal -> jsnum.
Variable World : Type.
Variable fetchSearch : World -> Url -> Fetched SearchData * World.
Variable fetchChannels : World -> Url -> Fetched ChannelsData * World.

Local Abbreviation iteration :=
  (iteration StringToNumber ObjectToNumber World fetchSearch fetchChannels).
Local Abbreviation loop :=
  (loop StringToNumber ObjectToNumber World fetchSearch fetchChannels).

Lemma loop_capped fuel apiKey st w :
  MAX_RESULTS ≤ length (collected st) →
  loop fuel apiKey st w = (Returned st, [], w).
Proof.
  intros Hcap. apply Nat.ltb_ge in Hcap. destruct fuel; simpl; by rewrite Hcap.
Qed.

(** X25: the cap ends the run whatever the page says: when a turn leaves a
    list of at least 100 channels, the loop makes no further request and ends
    in the state of that turn, even when the page carried a continuation
    token, and however much fuel is left. *)
Theorem cap_ends_the_run :
  ∀ (fuel : nat) (apiKey : string) (st st1 : LoopState) (w w1 : World)
    (c : Control) (t : list Event),
    length (collected st) < MAX_RESULTS →
    iteration apiKey st w = (Returned c, t, w1) →
    c = Continue st1 ∨ c = Break st1 →
    MAX_RESULTS ≤ length (collected st1) →
    loop (S fuel) apiKey st w = (Returned st1, t, w1).
Proof.
  intros fuel apiKey st st1 w w1 c t Hbelow Hturn Hc Hcap.
  rewrite loop_unfold. apply Nat.ltb_lt in Hbelow. rewrite Hbelow, Hturn.
  destruct Hc as [->| ->]; [|done].
  rewrite (loop_capped _ _ _ _ Hcap). by rewrite app_nil_r.
Qed.

End CapProperties.

Lemma cap_ends_the_run_witness :
  Examples.runLoop 5 "key" initialState Examples.fullWorld
  = (Returned Examples.fullState,
     (Examples.runTurn "key" initialState Examples.fullWorld).1.2,
     (Examples.runTurn "key" initialState Examples.fullWorld).2) ∧
  length (collected Examples.fullState) = 100 ∧
  pageToken Examples.fullState = Some "T1" ∧
  length (List.filter isSearch
            (Examples.runTurn "key" initialState Examples.fullWorld).1.2) = 1.
Proof.
  unfold Examples.runLoop, Examples.runTurn.
  split; [|split; [|split]; vm_compute; reflexivity].
  apply cap_ends_the_run with (c := Continue Examples.fullState).
  - vm_compute; lia.
  - vm_compute; reflexivity.
  - left; reflexivity.
  - vm_compute; lia.
Defined.
